(** * libshell: line-demultiplexing writer and command execution

    A shallow embedding of [shell.go].

    - Go's [[]byte] is [list byte], Go's [string] is [string]; the
      conversion [string(b)] is [string_of_list_byte].
    - Go's [int] is [Z].  Every integer the code computes is a slice length,
      an index into a slice or a sum of two such values bounded by a slice
      length (see [wf_buffer] and the termination proof of [CW.scan]), so no
      machine wrap-around can occur and none is written out.
    - A slice expression that is out of range panics in Go; here it yields
      [Panicked].  Go checks the upper bound of [b[lo:hi]] against the
      capacity, the model against the length.  The code only asks for an
      upper bound that is at most the length ([len(b)] itself, the offset
      plus an index found in the unconsumed slice, or the offset plus the
      length of that slice), where the two checks agree.
    - The line callback is a Go function value whose body is unknown; a call
      [this.callback(line, payload)] is recorded as an [invocation] in the
      list of calls a method returns.
    - The mutex only serialises [Write] and [Finalize]; the methods are
      modelled as the atomic steps the lock makes them. *)

From Stdlib Require Import List ZArith Lia Bool Ascii String Strings.Byte.

From Equations Require Import Equations.

Import ListNotations.

Local Open Scope Z_scope.

(** ** Panics *)

Inductive outcome (A : Type) : Type :=
| Done (a : A)
| Panicked (msg : string).

Arguments Done {A} a.

Arguments Panicked {A} msg.

Definition bind {A B : Type} (m : outcome A) (k : A -> outcome B) : outcome B :=
  match m with
  | Done a => k a
  | Panicked msg => Panicked msg
  end.

Notation "x <- m ;; k" := (bind m (fun x => k))
  (at level 61, m at next level, right associativity).

Notation "' p <- m ;; k" := (bind m (fun x => match x with p => k end))
  (at level 61, p pattern, m at next level, right associativity).

(** ** Data *)

Definition STDOUT : Z := 1.

Definition STDERR : Z := 2.

(** A callback is known only by its identity. *)
Inductive LineInputCallback : Type :=
| Callback (id : nat).

(** One call [cb(line, payload)]. *)
Record invocation : Type := Invoke {
  inv_callback : LineInputCallback;
  inv_line : string;
  inv_payload : Z
}.

Record simpleGrowingBuffer : Type := mkBuffer {
  byteBuffer : list byte;
  LastNewlineOffset : Z
}.

(** [buffer] is a pointer in Go: the writer is passed by value but every
    method mutates the one buffer it points to.  The methods below return
    the writer with its buffer updated. *)
Record CompositeWriter : Type := mkWriter {
  Type_ : Z;
  buffer : simpleGrowingBuffer;
  keepBuffer : bool;
  callback : option LineInputCallback;
  callbackPayload : Z
}.

Definition with_buffer (cw : CompositeWriter) (b : simpleGrowingBuffer) : CompositeWriter :=
  mkWriter (Type_ cw) b (keepBuffer cw) (callback cw) (callbackPayload cw).

Definition NewCompositeWriter (t : Z) (cb : option LineInputCallback)
    (payload : Z) (keep : bool) : CompositeWriter :=
  mkWriter t (mkBuffer [] 0) keep cb payload.

(** [len(s)] *)
Definition len {A : Type} (s : list A) : Z := Z.of_nat (List.length s).

(** [s[lo:hi]], panicking when [0 <= lo <= hi <= len(s)] fails. *)
Definition slice {A : Type} (s : list A) (lo hi : Z) : outcome (list A) :=
  if (0 <=? lo) && (lo <=? hi) && (hi <=? len s)
  then Done (firstn (Z.to_nat (hi - lo)) (skipn (Z.to_nat lo) s))
  else Panicked "slice bounds out of range".

(** [bytes.IndexByte]: index of the first [c] in [s], or -1. *)
Fixpoint IndexByte (s : list byte) (c : byte) : Z :=
  match s with
  | [] => -1
  | x :: r =>
      if Byte.eqb x c then 0
      else let i := IndexByte r c in if i =? -1 then -1 else i + 1
  end.

Definition newline : byte := x0a.

(** ** simpleGrowingBuffer *)

Module Buf.

Definition SliceLength (b : simpleGrowingBuffer) : Z :=
  len (byteBuffer b) - LastNewlineOffset b.

Definition Slice (b : simpleGrowingBuffer) : outcome (list byte) :=
  slice (byteBuffer b) (LastNewlineOffset b) (len (byteBuffer b)).

Definition SliceNext (b : simpleGrowingBuffer) (count : Z) : outcome (list byte) :=
  slice (byteBuffer b) (LastNewlineOffset b) (LastNewlineOffset b + count).

Definition Reset (b : simpleGrowingBuffer) : simpleGrowingBuffer :=
  mkBuffer [] 0.

Definition Truncate (b : simpleGrowingBuffer) : outcome simpleGrowingBuffer :=
  s <- Slice b ;;
  Done (mkBuffer s 0).

Definition IncrementOffset (b : simpleGrowingBuffer) (delta : Z) : simpleGrowingBuffer :=
  mkBuffer (byteBuffer b) (LastNewlineOffset b + delta).

Definition Append (b : simpleGrowingBuffer) (p : list byte) : simpleGrowingBuffer :=
  mkBuffer (byteBuffer b ++ p) (LastNewlineOffset b).

Definition ToString (b : simpleGrowingBuffer) : string :=
  string_of_list_byte (byteBuffer b).

End Buf.

(** ** Errors

    A Go [error] is either an [*exec.ExitError], whose [Sys()] value may or
    may not be a [syscall.WaitStatus], or some other error.  A wait status is
    a 32-bit word on every platform Go supports. *)

Definition WaitStatus : Type := Z.

Inductive sys_value : Type :=
| SysWaitStatus (status : WaitStatus)
| SysOther.

Inductive error : Type :=
| ExitError (sys : sys_value)
| OtherError (msg : string).

(** ** CompositeWriter *)

Module CW.

Definition ToString (this : CompositeWriter) : outcome string :=
  if Bool.eqb (keepBuffer this) false
  then Panicked "KeepBuffer = false for this composite writer"
  else Done (Buf.ToString (buffer this)).

(** One round of the loop of [Write]: look for the next newline in the
    unconsumed slice; if there is one, emit the line and move the offset
    past the newline. *)
Definition step (cb : LineInputCallback) (payload : Z) (b : simpleGrowingBuffer)
  : outcome (option (invocation * simpleGrowingBuffer)) :=
  s <- Buf.Slice b ;;
  let pos := IndexByte s newline in
  if pos =? -1 then Done None
  else
    line <- Buf.SliceNext b pos ;;
    Done (Some (Invoke cb (string_of_list_byte line) payload,
                Buf.IncrementOffset b (pos + 1))).

Definition inspect {A : Type} (a : A) : {x : A | a = x} := exist _ a eq_refl.

(** The loop [for pos != -1 { ... }]: returns the buffer, [foundSmth] and
    the calls made, in order.  Each round shortens the unconsumed slice. *)
Equations? scan (cb : LineInputCallback) (payload : Z) (b : simpleGrowingBuffer)
  : outcome (simpleGrowingBuffer * bool * list invocation)
  by wf (Z.to_nat (Buf.SliceLength b)) lt :=
scan cb payload b with inspect (step cb payload b) := {
  | exist _ (Panicked msg) _ => Panicked msg
  | exist _ (Done None) _ => Done (b, false, [])
  | exist _ (Done (Some (c, b'))) Hstep =>
      match scan cb payload b' with
      | Done (b'', _, calls) => Done (b'', true, c :: calls)
      | Panicked msg => Panicked msg
      end }.
Proof.
  assert (Hidx : forall s x, IndexByte s x = -1 \/ 0 <= IndexByte s x < len s).
  { induction s as [|y r IH]; intros x; cbn [IndexByte]; [now left|].
    unfold len in *. cbn [List.length]. destruct (Byte.eqb y x); [right; lia|].
    destruct (IH x) as [E|E].
    - rewrite E. now left.
    - destruct (Z.eqb_spec (IndexByte r x) (-1)); [now left | right; lia]. }
  unfold step, Buf.Slice, Buf.SliceNext, slice, bind in Hstep.
  destruct (_ && _) eqn:Hb in Hstep; [|discriminate].
  set (s := firstn _ _) in Hstep.
  assert (Hlen : len s = Buf.SliceLength b).
  { unfold s, len, Buf.SliceLength. rewrite length_firstn, length_skipn.
    unfold len in *. lia. }
  destruct (Hidx s newline) as [E|E].
  - rewrite E in Hstep. discriminate.
  - destruct (Z.eqb_spec (IndexByte s newline) (-1)); [lia|].
    destruct (_ && _) in Hstep; [|discriminate].
    inversion Hstep; subst. unfold Buf.SliceLength, Buf.IncrementOffset in *.
    cbn [byteBuffer LastNewlineOffset]. lia.
Qed.

Definition Write (this : CompositeWriter) (p : list byte)
  : outcome (CompositeWriter * list invocation * (Z * option error)) :=
  let b := Buf.Append (buffer this) p in
  match callback this with
  | None => Done (with_buffer this b, [], (len p, None))
  | Some cb =>
      '(b1, foundSmth, calls) <- scan cb (callbackPayload this) b ;;
      b2 <- (if foundSmth && negb (keepBuffer this) then Buf.Truncate b1 else Done b1) ;;
      Done (with_buffer this b2, calls, (len p, None))
  end.

Definition Finalize (this : CompositeWriter) : outcome (CompositeWriter * list invocation) :=
  match callback this with
  | None => Done (this, [])
  | Some cb =>
      let pos := Buf.SliceLength (buffer this) in
      if 0 <? pos then
        line <- Buf.SliceNext (buffer this) pos ;;
        let call := Invoke cb (string_of_list_byte line) (callbackPayload this) in
        if negb (keepBuffer this)
        then Done (with_buffer this (Buf.Reset (buffer this)), [call])
        else Done (with_buffer this (Buf.IncrementOffset (buffer this) pos), [call])
      else Done (this, [])
  end.

End CW.

(** ** The process side

    [os/exec], [io/ioutil], [os] and [syscall] are not part of the library.
    What they answer during one [Begin] or [Run] is collected in an
    [os_behaviour]; the library's code is modelled against any such
    answers. *)

(** [syscall.WaitStatus.ExitStatus()] differs per platform. *)
Class Platform : Type := {
  ExitStatus : WaitStatus -> Z
}.

(** Unix: the low seven bits are zero for a process that exited, and the
    exit status is the next byte; [ExitStatus()] is -1 otherwise. *)
Definition unix_ExitStatus (w : WaitStatus) : Z :=
  if Z.land w 127 =? 0 then Z.land (Z.shiftr w 8) 255 else -1.

(** Windows: the wait status is the exit code itself. *)
Definition windows_ExitStatus (w : WaitStatus) : Z := w.

Definition unix : Platform := {| ExitStatus := unix_ExitStatus |}.

Definition windows : Platform := {| ExitStatus := windows_ExitStatus |}.

(** An [io.ReadCloser] is known by what [ioutil.ReadAll] returns on it. *)
Record ReadCloser : Type := mkReader {
  ReadAll : list byte + error
}.

(** What [cmd.Stdout] or [cmd.Stderr] holds. *)
Inductive sink : Type :=
| SinkNil
| SinkPipe
| SinkWriter (cw : CompositeWriter)
| SinkOther.

(** [exec.Cmd], as far as the library looks at it. *)
Record Cmd : Type := mkCmd {
  cmd_Path : string;
  cmd_Args : list string;
  cmd_Env : option (list string);
  cmd_Stdout : sink;
  cmd_Stderr : sink;
  cmd_Process : bool
}.

(** [exec.Command(name, arg...)] *)
Definition exec_Command (name : string) (arg : list string) : Cmd :=
  mkCmd name (name :: arg) None SinkNil SinkNil false.

Record os_behaviour : Type := mkOS {
  os_StdoutPipe : ReadCloser + error;
  os_StderrPipe : ReadCloser + error;
  os_Environ : list string;
  os_Start : option error;
  (* chunks the copying goroutines write to [cmd.Stdout] ([STDOUT]) and
     [cmd.Stderr] ([STDERR]) before [Wait] returns, in order of arrival *)
  os_output : list (Z * list byte);
  os_Wait : option error
}.

(** [Wait] of [os/exec] for a process that ended with wait status [w]:
    nil when it succeeded, an [*exec.ExitError] carrying [w] otherwise. *)
Definition wait_of_status `{Platform} (w : WaitStatus) : option error :=
  if ExitStatus w =? 0 then None else Some (ExitError (SysWaitStatus w)).

(** ** CommandExecution *)

Record CommandExecution : Type := mkExecution {
  Command : string;
  Args : list string;
  (* the map, in the order [range] visits it *)
  Environment : option (list (string * string));
  LogExecution : bool;
  AutoReadStdout : bool;
  AutoReadStderr : bool;
  WrappedCmd : option Cmd;
  StdoutReader : option ReadCloser;
  StderrReader : option ReadCloser;
  Stdout : string;
  Stderr : string;
  ExitCode : Z
}.

Definition set_AutoReadStdout (v : bool) (e : CommandExecution) : CommandExecution :=
  mkExecution (Command e) (Args e) (Environment e) (LogExecution e) v (AutoReadStderr e)
    (WrappedCmd e) (StdoutReader e) (StderrReader e) (Stdout e) (Stderr e) (ExitCode e).

Definition set_AutoReadStderr (v : bool) (e : CommandExecution) : CommandExecution :=
  mkExecution (Command e) (Args e) (Environment e) (LogExecution e) (AutoReadStdout e) v
    (WrappedCmd e) (StdoutReader e) (StderrReader e) (Stdout e) (Stderr e) (ExitCode e).

Definition set_WrappedCmd (v : option Cmd) (e : CommandExecution) : CommandExecution :=
  mkExecution (Command e) (Args e) (Environment e) (LogExecution e) (AutoReadStdout e)
    (AutoReadStderr e) v (StdoutReader e) (StderrReader e) (Stdout e) (Stderr e) (ExitCode e).

Definition set_StdoutReader (v : option ReadCloser) (e : CommandExecution) : CommandExecution :=
  mkExecution (Command e) (Args e) (Environment e) (LogExecution e) (AutoReadStdout e)
    (AutoReadStderr e) (WrappedCmd e) v (StderrReader e) (Stdout e) (Stderr e) (ExitCode e).

Definition set_StderrReader (v : option ReadCloser) (e : CommandExecution) : CommandExecution :=
  mkExecution (Command e) (Args e) (Environment e) (LogExecution e) (AutoReadStdout e)
    (AutoReadStderr e) (WrappedCmd e) (StdoutReader e) v (Stdout e) (Stderr e) (ExitCode e).

Definition set_Stdout (v : string) (e : CommandExecution) : CommandExecution :=
  mkExecution (Command e) (Args e) (Environment e) (LogExecution e) (AutoReadStdout e)
    (AutoReadStderr e) (WrappedCmd e) (StdoutReader e) (StderrReader e) v (Stderr e) (ExitCode e).

Definition set_Stderr (v : string) (e : CommandExecution) : CommandExecution :=
  mkExecution (Command e) (Args e) (Environment e) (LogExecution e) (AutoReadStdout e)
    (AutoReadStderr e) (WrappedCmd e) (StdoutReader e) (StderrReader e) (Stdout e) v (ExitCode e).

Definition set_ExitCode (v : Z) (e : CommandExecution) : CommandExecution :=
  mkExecution (Command e) (Args e) (Environment e) (LogExecution e) (AutoReadStdout e)
    (AutoReadStderr e) (WrappedCmd e) (StdoutReader e) (StderrReader e) (Stdout e) (Stderr e) v.

Definition set_cmd_Env (v : option (list string)) (c : Cmd) : Cmd :=
  mkCmd (cmd_Path c) (cmd_Args c) v (cmd_Stdout c) (cmd_Stderr c) (cmd_Process c).

Definition set_cmd_Stdout (v : sink) (c : Cmd) : Cmd :=
  mkCmd (cmd_Path c) (cmd_Args c) (cmd_Env c) v (cmd_Stderr c) (cmd_Process c).

Definition set_cmd_Stderr (v : sink) (c : Cmd) : Cmd :=
  mkCmd (cmd_Path c) (cmd_Args c) (cmd_Env c) (cmd_Stdout c) v (cmd_Process c).

Definition set_cmd_Process (v : bool) (c : Cmd) : Cmd :=
  mkCmd (cmd_Path c) (cmd_Args c) (cmd_Env c) (cmd_Stdout c) (cmd_Stderr c) v.

Definition New (command : string) (args : list string) : CommandExecution :=
  {| Command := command;
     Args := args;
     Environment := None;
     LogExecution := false;
     AutoReadStdout := true;
     AutoReadStderr := true;
     WrappedCmd := None;
     StdoutReader := None;
     StderrReader := None;
     Stdout := "-- stdout: this command has never been executed --";
     Stderr := "-- stderr: this command has never been executed --";
     ExitCode := -1 |}.

(** What a call did besides changing its receiver. *)
Inductive effect : Type :=
| Logged (line : string)
| Called (stream : Z) (call : invocation).

Definition quote : string := String "034"%char EmptyString.

(** [Begin].  The receiver is returned as the call left it, together with
    the error ([None] is nil) and the lines logged. *)
Definition Begin (os : os_behaviour) (self : CommandExecution)
  : CommandExecution * option error * list effect :=
  let cmd := exec_Command (Command self) (Args self) in
  match (if AutoReadStdout self then
           match os_StdoutPipe os with
           | inr err => inr err
           | inl stdout => inl (set_StdoutReader (Some stdout) self, set_cmd_Stdout SinkPipe cmd)
           end
         else inl (self, cmd)) with
  | inr err => (self, Some err, [])
  | inl (self1, cmd1) =>
      match (if AutoReadStderr self1 then
               match os_StderrPipe os with
               | inr err => inr err
               | inl stderr => inl (set_StderrReader (Some stderr) self1, set_cmd_Stderr SinkPipe cmd1)
               end
             else inl (self1, cmd1)) with
      | inr err => (self1, Some err, [])
      | inl (self2, cmd2) =>
          let cmd3 :=
            match Environment self2 with
            | Some env =>
                set_cmd_Env
                  (Some (fold_left (fun e kv => e ++ [(fst kv ++ "=" ++ snd kv)%string])
                                   env (os_Environ os)))
                  cmd2
            | None => cmd2
            end in
          let logged :=
            if LogExecution self2
            then [Logged ("DEBUG: execute " ++ quote ++ Command self2 ++ " "
                            ++ String.concat " " (Args self2) ++ quote)%string]
            else [] in
          (set_WrappedCmd (Some cmd3) self2, None, logged)
      end
  end.

(** How a call ends: it returns an error value (nil is [None]) or panics. *)
Inductive run_result : Type :=
| Returned (err : option error)
| Panics (msg : string).

(** *** A monad for the method bodies

    State: the receiver and the effects so far.  A computation either goes
    on with a value or leaves the method with a [run_result]. *)

Definition exec (A : Type) : Type :=
  CommandExecution * list effect -> (A + run_result) * (CommandExecution * list effect).

Definition ret {A : Type} (a : A) : exec A := fun st => (inl a, st).

Definition leave {A : Type} (r : run_result) : exec A := fun st => (inr r, st).

Definition ebind {A B : Type} (m : exec A) (k : A -> exec B) : exec B :=
  fun st =>
    match m st with
    | (inl a, st') => k a st'
    | (inr r, st') => (inr r, st')
    end.

Declare Scope exec_scope.

Delimit Scope exec_scope with exec.

Notation "x <- m ;; k" := (ebind m (fun x => k))
  (at level 61, m at next level, right associativity) : exec_scope.

Notation "' p <- m ;; k" := (ebind m (fun x => match x with p => k end))
  (at level 61, p pattern, m at next level, right associativity) : exec_scope.

Notation "m ;; k" := (ebind m (fun _ => k))
  (at level 61, right associativity) : exec_scope.

Definition get_self : exec CommandExecution := fun st => (inl (fst st), st).

Definition modify (f : CommandExecution -> CommandExecution) : exec unit :=
  fun st => (inl tt, (f (fst st), snd st)).

Definition emit (fx : list effect) : exec unit :=
  fun st => (inl tt, (fst st, snd st ++ fx)).

Definition lift {A : Type} (o : outcome A) : exec A :=
  match o with
  | Done a => ret a
  | Panicked msg => leave (Panics msg)
  end.

(** [self.WrappedCmd.f]: dereferences the pointer. *)
Definition get_cmd : exec Cmd :=
  fun st =>
    match WrappedCmd (fst st) with
    | Some cmd => (inl cmd, st)
    | None => (inr (Panics "invalid memory address or nil pointer dereference"), st)
    end.

Definition put_cmd (cmd : Cmd) : exec unit := modify (set_WrappedCmd (Some cmd)).

Definition call_Begin (os : os_behaviour) : exec (option error) :=
  fun st =>
    let '(self, err, fx) := Begin os (fst st) in
    (inl err, (self, snd st ++ fx)).

(** The copying goroutines of [os/exec] write each chunk of output to the
    sink of its stream when that sink is not a file. *)
Definition write_sink (s : sink) (p : list byte) : outcome (sink * list effect) :=
  match s with
  | SinkWriter cw =>
      '(cw', calls, _) <- CW.Write cw p ;;
      Done (SinkWriter cw', map (Called (Type_ cw)) calls)
  | _ => Done (s, [])
  end.

Fixpoint deliver (output : list (Z * list byte)) (cmd : Cmd) : outcome (Cmd * list effect) :=
  match output with
  | [] => Done (cmd, [])
  | (stream, p) :: rest =>
      '(cmd1, fx1) <-
        (if stream =? STDOUT then
           '(s, fx) <- write_sink (cmd_Stdout cmd) p ;; Done (set_cmd_Stdout s cmd, fx)
         else if stream =? STDERR then
           '(s, fx) <- write_sink (cmd_Stderr cmd) p ;; Done (set_cmd_Stderr s cmd, fx)
         else Done (cmd, [])) ;;
      '(cmd2, fx2) <- deliver rest cmd1 ;;
      Done (cmd2, fx1 ++ fx2)
  end.

(** The [switch ... .(type) { case *CompositeWriter: ... }] blocks of [Run]:
    finalize the writer, and when it keeps its buffer return the text and
    reset the buffer. *)
Definition finalize_sink (s : sink) : outcome (sink * option string * list effect) :=
  match s with
  | SinkWriter cw =>
      '(cw1, calls) <- CW.Finalize cw ;;
      let fx := map (Called (Type_ cw)) calls in
      if keepBuffer cw1 then
        text <- CW.ToString cw1 ;;
        Done (SinkWriter (with_buffer cw1 (Buf.Reset (buffer cw1))), Some text, fx)
      else Done (SinkWriter cw1, None, fx)
  | _ => Done (s, None, [])
  end.

Section Execution.

Context `{Platform}.

Local Open Scope exec_scope.

(** The blocks of [Run], in the order of the source. *)

(** [if self.WrappedCmd == nil { err := self.Begin(); ... }] *)
Definition auto_initialize (os : os_behaviour) : exec unit :=
  self <- get_self ;;
  match WrappedCmd self with
  | None =>
      err <- call_Begin os ;;
      match err with
      | Some e => leave (Returned (Some e))
      | None => ret tt
      end
  | Some _ => ret tt
  end.

(** [if self.WrappedCmd.Process == nil { ... Start() ... }] *)
Definition start_process (os : os_behaviour) : exec unit :=
  cmd <- get_cmd ;;
  if cmd_Process cmd then ret tt
  else match os_Start os with
       | Some err => leave (Returned (Some err))
       | None => put_cmd (set_cmd_Process true cmd)
       end.

(** [if self.StdoutReader != nil { ... ReadAll ... }] *)
Definition read_stdout : exec unit :=
  self <- get_self ;;
  match StdoutReader self with
  | Some r =>
      match ReadAll r with
      | inr err => leave (Returned (Some err))
      | inl bytes => modify (set_Stdout (string_of_list_byte bytes))
      end
  | None => ret tt
  end.

Definition read_stderr : exec unit :=
  self <- get_self ;;
  match StderrReader self with
  | Some r =>
      match ReadAll r with
      | inr err => leave (Returned (Some err))
      | inl bytes => modify (set_Stderr (string_of_list_byte bytes))
      end
  | None => ret tt
  end.

(** [err := self.WrappedCmd.Wait()]: when it returns, the output has been
    copied to the sinks. *)
Definition wait_process (os : os_behaviour) : exec (option error) :=
  cmd <- get_cmd ;;
  '(cmd1, fx) <- lift (deliver (os_output os) cmd) ;;
  put_cmd cmd1 ;;
  emit fx ;;
  ret (os_Wait os).

(** [switch self.WrappedCmd.Stdout.(type) { case *CompositeWriter: ... }] *)
Definition finalize_stdout : exec unit :=
  cmd <- get_cmd ;;
  '(s, text, fx) <- lift (finalize_sink (cmd_Stdout cmd)) ;;
  put_cmd (set_cmd_Stdout s cmd) ;;
  emit fx ;;
  match text with
  | Some t => modify (set_Stdout t)
  | None => ret tt
  end.

Definition finalize_stderr : exec unit :=
  cmd <- get_cmd ;;
  '(s, text, fx) <- lift (finalize_sink (cmd_Stderr cmd)) ;;
  put_cmd (set_cmd_Stderr s cmd) ;;
  emit fx ;;
  match text with
  | Some t => modify (set_Stderr t)
  | None => ret tt
  end.

(** [if err != nil { ... } else { self.ExitCode = 0 }]: an exit error yields
    the exit status of its wait status, any other error is returned. *)
Definition classify (err : option error) : exec unit :=
  match err with
  | Some (ExitError sys) =>
      match sys with
      | SysWaitStatus status => modify (set_ExitCode (ExitStatus status))
      | SysOther => leave (Panics "cannot retrieve exit code")
      end
  | Some e => leave (Returned (Some e))
  | None => modify (set_ExitCode 0)
  end.

Definition Run_body (os : os_behaviour) : exec unit :=
  auto_initialize os ;;
  start_process os ;;
  read_stdout ;;
  read_stderr ;;
  err <- wait_process os ;;
  finalize_stdout ;;
  finalize_stderr ;;
  classify err.

Definition RunWithCallbacks_body (os : os_behaviour)
    (stdoutCb stderrCb : option LineInputCallback) (stdoutPayload stderrPayload : Z)
    (keepStdout keepStderr : bool) : exec unit :=
  match stdoutCb with
  | Some _ => modify (set_AutoReadStdout false)
  | None => ret tt
  end ;;
  match stderrCb with
  | Some _ => modify (set_AutoReadStderr false)
  | None => ret tt
  end ;;
  (* perform regular initialization - although most features are disabled *)
  err <- call_Begin os ;;
  match err with
  | Some e => leave (Returned (Some e))
  | None => ret tt
  end ;;
  match stdoutCb with
  | Some _ =>
      cmd <- get_cmd ;;
      put_cmd (set_cmd_Stdout
                 (SinkWriter (NewCompositeWriter STDOUT stdoutCb stdoutPayload keepStdout)) cmd)
  | None => ret tt
  end ;;
  match stderrCb with
  | Some _ =>
      cmd <- get_cmd ;;
      put_cmd (set_cmd_Stderr
                 (SinkWriter (NewCompositeWriter STDERR stderrCb stderrPayload keepStderr)) cmd)
  | None => ret tt
  end ;;
  Run_body os.

(** The receiver after the call, how the call ended, and its effects. *)
Definition conclude (out : (unit + run_result) * (CommandExecution * list effect))
  : CommandExecution * run_result * list effect :=
  match out with
  | (inl _, (self', fx)) => (self', Returned None, fx)
  | (inr r, (self', fx)) => (self', r, fx)
  end.

Definition finish (m : exec unit) (self : CommandExecution)
  : CommandExecution * run_result * list effect :=
  conclude (m (self, [])).

Definition Run (os : os_behaviour) (self : CommandExecution)
  : CommandExecution * run_result * list effect :=
  finish (Run_body os) self.

Definition RunWithCallbacks (os : os_behaviour)
    (stdoutCb stderrCb : option LineInputCallback) (stdoutPayload stderrPayload : Z)
    (keepStdout keepStderr : bool) (this : CommandExecution)
  : CommandExecution * run_result * list effect :=
  finish (RunWithCallbacks_body os stdoutCb stderrCb stdoutPayload stderrPayload
            keepStdout keepStderr) this.

End Execution.

(** ** SSH *)

(** [ExtraSshOptions] is a package variable; it is read when the function is
    called and passed here as an argument. *)
Definition prepareSshArgs (ExtraSshOptions : list string) (host : string)
    (args : list string) : list string :=
  let a := ExtraSshOptions
             ++ ["-o"; "UserKnownHostsFile=/dev/null"; "-o"; "StrictHostKeyChecking=no";
                 "-o"; "LogLevel=ERROR"; host]%string in
  let a := a ++ args in
  a.

Definition NewSsh (ExtraSshOptions : list string) (host : string) (args : list string)
  : CommandExecution :=
  let cmd := New "ssh" (prepareSshArgs ExtraSshOptions host args) in
  cmd.

(** * Vocabulary of the specification *)

(** ** Streams, lines and drivers *)

(** The reference reading of a byte stream: its newline-terminated lines
    (terminators removed) and what follows the last newline. *)
Fixpoint split_lines (s : list byte) : list (list byte) * list byte :=
  match s with
  | [] => ([], [])
  | x :: r =>
      let (ls, rest) := split_lines r in
      if Byte.eqb x newline then ([] :: ls, rest)
      else match ls with
           | [] => ([], x :: rest)
           | l :: ls' => ((x :: l) :: ls', rest)
           end
  end.

Definition complete_lines (s : list byte) : list (list byte) := fst (split_lines s).

Definition pending (s : list byte) : list byte := snd (split_lines s).

(** [L1 \n L2 \n ... Ln \n] *)
Definition terminated (lines : list string) : list byte :=
  flat_map (fun l => list_byte_of_string l ++ [newline]) lines.

Definition no_newline (s : list byte) : Prop := ~ In newline s.

(** A sequence of [Write] calls on one writer; the calls made, in order. *)
Fixpoint WriteAll (cw : CompositeWriter) (chunks : list (list byte))
  : outcome (CompositeWriter * list invocation) :=
  match chunks with
  | [] => Done (cw, [])
  | p :: rest =>
      '(cw1, calls1, _) <- CW.Write cw p ;;
      '(cw2, calls2) <- WriteAll cw1 rest ;;
      Done (cw2, calls1 ++ calls2)
  end.

(** The offset lies within the accumulated bytes. *)
Definition wf_buffer (b : simpleGrowingBuffer) : Prop :=
  0 <= LastNewlineOffset b <= len (byteBuffer b).

(** The unconsumed bytes of a buffer. *)
Definition unconsumed (b : simpleGrowingBuffer) : list byte :=
  skipn (Z.to_nat (LastNewlineOffset b)) (byteBuffer b).

Definition line_call (cb : LineInputCallback) (payload : Z) (l : list byte) : invocation :=
  Invoke cb (string_of_list_byte l) payload.

Definition rejoin (ls : list (list byte)) : list byte :=
  flat_map (fun l => l ++ [newline]) ls.

(** The buffer is well formed and [u] is its unconsumed part. *)
Definition tracks (b : simpleGrowingBuffer) (u : list byte) : Prop :=
  wf_buffer b /\ unconsumed b = u.

Definition is_empty {A : Type} (l : list A) : bool :=
  match l with [] => true | _ => false end.

(** The longest line of a stream, terminators not counted, the unterminated
    last line included. *)
Definition longest_line (s : list byte) : Z :=
  fold_right Z.max 0 (map len (complete_lines s ++ [pending s])).

(** After the writes [chunks] on [cw0] the buffer is no longer than the
    longest line of the stream. *)
Definition buffer_within_longest_line (cw0 : CompositeWriter)
    (chunks : list (list byte)) : Prop :=
  exists cw' calls,
    WriteAll cw0 chunks = Done (cw', calls)
    /\ len (byteBuffer (buffer cw')) <= longest_line (List.concat chunks).

(** ** Requests and processes *)

(** A sink that is a writer holds a well-formed buffer. *)
Definition sink_ok (s : sink) : Prop :=
  match s with
  | SinkWriter cw => wf_buffer (buffer cw)
  | _ => True
  end.

(** [ioutil.ReadAll] succeeds on the reader, if there is one. *)
Definition readable (r : option ReadCloser) : Prop :=
  match r with
  | Some r => exists b, ReadAll r = inl b
  | None => True
  end.

(** The process can be set up, started and read: both pipes attach, their
    readers can be read to the end, and [Start] succeeds. *)
Definition process_runs (os : os_behaviour) : Prop :=
  (exists r, os_StdoutPipe os = inl r /\ readable (Some r))
  /\ (exists r, os_StderrPipe os = inl r /\ readable (Some r))
  /\ os_Start os = None.

Definition sinks_ok (cmd : Cmd) : Prop :=
  sink_ok (cmd_Stdout cmd) /\ sink_ok (cmd_Stderr cmd).

(** What [Run] may be called on: readers that are set can be read, and a
    command that is set has well-formed writers.  [New] gives such a
    request, and so do [Begin] and the setup of [RunWithCallbacks]. *)
Definition request_ok (self : CommandExecution) : Prop :=
  readable (StdoutReader self) /\ readable (StderrReader self)
  /\ match WrappedCmd self with
     | Some cmd => sinks_ok cmd
     | None => True
     end.

Definition prepared (self : CommandExecution) : Prop :=
  readable (StdoutReader self) /\ readable (StderrReader self)
  /\ exists cmd, WrappedCmd self = Some cmd /\ sinks_ok cmd.

(** A computation that leaves the exit code alone and never leaves the
    method with a nil error. *)
Definition quiet {A : Type} (m : exec A) : Prop :=
  forall st,
    ExitCode (fst (snd (m st))) = ExitCode (fst st)
    /\ fst (m st) <> inr (Returned None).

Section ExecutionVocabulary.

Context {P : Platform}.

(** What [Run] does once the command is there. *)
Definition after_preparation (os : os_behaviour) : exec unit :=
  (start_process os ;;
   read_stdout ;;
   read_stderr ;;
   err <- wait_process os ;;
   finalize_stdout ;;
   finalize_stderr ;;
   classify err)%exec.

(** How a computation that ends with the classification of [os_Wait os]
    leaves the exit code. *)
Definition classified (os : os_behaviour) (m : exec unit) : Prop :=
  forall st,
    match m st with
    | (inl _, (self', _)) =>
        (os_Wait os = None /\ ExitCode self' = 0)
        \/ (exists w, os_Wait os = Some (ExitError (SysWaitStatus w))
                      /\ ExitCode self' = ExitStatus w)
    | (inr (Returned None), _) => False
    | (inr _, (self', _)) => ExitCode self' = ExitCode (fst st)
    end.

End ExecutionVocabulary.

(** How a call of [Run] or [RunWithCallbacks] on [self] that ended with [r]
    in [self'] has treated the exit code: a nil return comes with 0 after a
    nil [Wait] and with the exit status of the wait status after an exit
    error; an error return or a panic leaves the exit code as it was. *)
Definition exit_code_rule {P : Platform} (os : os_behaviour)
    (self : CommandExecution) (out : CommandExecution * run_result * list effect) : Prop :=
  let '(self', r, _) := out in
  match r with
  | Returned None =>
      (os_Wait os = None /\ ExitCode self' = 0)
      \/ (exists w, os_Wait os = Some (ExitError (SysWaitStatus w))
                    /\ ExitCode self' = ExitStatus w)
  | _ => ExitCode self' = ExitCode self
  end.

Definition quiet_process (wait : option error) : os_behaviour :=
  {| os_StdoutPipe := inl (mkReader (inl []));
     os_StderrPipe := inl (mkReader (inl []));
     os_Environ := [];
     os_Start := None;
     os_output := [];
     os_Wait := wait |}.

Definition stderr_pipe_fails : os_behaviour :=
  {| os_StdoutPipe := inl (mkReader (inl []));
     os_StderrPipe := inr (OtherError "pipe: too many open files");
     os_Environ := [];
     os_Start := None;
     os_output := [];
     os_Wait := None |}.

Definition test_output : os_behaviour :=
  {| os_StdoutPipe := inr (OtherError "unused");
     os_StderrPipe := inr (OtherError "unused");
     os_Environ := [];
     os_Start := None;
     os_output :=
       [(STDOUT, terminated ["start"%string]);
        (STDOUT, terminated ["line on stdout"%string]);
        (STDERR, terminated ["XXX line on stderr"%string]);
        (STDOUT, terminated ["finished"%string])];
     os_Wait := None |}.

(** ** Vocabulary of the further properties *)

(** The buffer of a fresh writer with a callback once the stream [s] has
    been written: the whole stream with the offset behind the last newline
    when the buffer is kept, what follows the last newline otherwise. *)
Definition stream_buffer (keep : bool) (s : list byte) : simpleGrowingBuffer :=
  if keep then mkBuffer s (len s - len (pending s)) else mkBuffer (pending s) 0.

(** The call [Finalize] makes after the stream [s]. *)
Definition last_call (cb : LineInputCallback) (payload : Z) (s : list byte)
  : list invocation :=
  if is_empty (pending s) then [] else [line_call cb payload (pending s)].

Definition is_newline (x : byte) : bool := Byte.eqb x newline.

(** The stream is not empty and does not end with a newline. *)
Definition ends_open (s : list byte) : bool :=
  match rev s with
  | [] => false
  | x :: _ => negb (is_newline x)
  end.

(** The bytes the process wrote to one stream, in order. *)
Definition stream_of (stream : Z) (output : list (Z * list byte)) : list byte :=
  List.concat (map snd (filter (fun e => fst e =? stream) output)).

(** The callback calls made for one stream, in order. *)
Definition calls_of (stream : Z) (fx : list effect) : list invocation :=
  flat_map (fun e => match e with
                     | Called s c => if s =? stream then [c] else []
                     | Logged _ => []
                     end) fx.

Definition is_writer (s : sink) : bool :=
  match s with SinkWriter _ => true | _ => false end.

(** [fmt.Sprintf("%s=%s", k, v)] *)
Definition env_entry (kv : string * string) : string :=
  (fst kv ++ "=" ++ snd kv)%string.

(** The command [Begin] builds, with the sinks [o] and [e]. *)
Definition prepared_cmd (os : os_behaviour) (self : CommandExecution) (o e : sink) : Cmd :=
  mkCmd (Command self) (Command self :: Args self)
        (option_map (fun env => os_Environ os ++ map env_entry env) (Environment self))
        o e false.

(** What [Begin] logs. *)
Definition begin_log (self : CommandExecution) : list effect :=
  if LogExecution self
  then [Logged ("DEBUG: execute " ++ quote ++ Command self ++ " "
                  ++ String.concat " " (Args self) ++ quote)%string]
  else [].

(** [if cw.keepBuffer { self.Stdout = cw.ToString() }], for either stream. *)
Definition set_text (set : string -> CommandExecution -> CommandExecution)
    (text : option string) (self : CommandExecution) : CommandExecution :=
  match text with
  | Some t => set t self
  | None => self
  end.

(** How [Run] ends when the process ran, by what [Wait] returned. *)
Definition wait_verdict (w : option error) : run_result :=
  match w with
  | None => Returned None
  | Some (ExitError (SysWaitStatus _)) => Returned None
  | Some (ExitError SysOther) => Panics "cannot retrieve exit code"
  | Some e => Returned (Some e)
  end.

(** The request after the pipes [r1] and [r2] have been attached where the
    auto-read flags ask for them. *)
Definition with_readers (r1 r2 : ReadCloser) (self : CommandExecution) : CommandExecution :=
  let self1 := if AutoReadStdout self then set_StdoutReader (Some r1) self else self in
  if AutoReadStderr self then set_StderrReader (Some r2) self1 else self1.

Definition pipe_sink (auto : bool) : sink := if auto then SinkPipe else SinkNil.

Definition no_child : os_behaviour :=
  {| os_StdoutPipe := inl (mkReader (inl (list_byte_of_string "out")));
     os_StderrPipe := inl (mkReader (inl (list_byte_of_string "err")));
     os_Environ := [];
     os_Start := None;
     os_output := [];
     os_Wait := Some (OtherError "wait: no child processes") |}.

(** All the calls of a writer's life on the stream [s]: one per terminated
    line, then one for an unterminated rest. *)
Definition session_calls (cb : LineInputCallback) (payload : Z) (s : list byte)
  : list invocation :=
  map (line_call cb payload) (complete_lines s) ++ last_call cb payload s.



(** * Lemmas *)

(** ** The buffer and the loop of [Write] *)

Lemma len_app {A} (a b : list A) : len (a ++ b) = len a + len b.
Proof. unfold len. rewrite length_app. lia. Qed.

Lemma len_nonneg {A} (a : list A) : 0 <= len a.
Proof. unfold len. lia. Qed.

Lemma IndexByte_range s c : IndexByte s c = -1 \/ 0 <= IndexByte s c < len s.
Proof.
  induction s as [|y r IH]; cbn [IndexByte]; [now left|].
  unfold len in *. cbn [List.length]. destruct (Byte.eqb y c); [right; lia|].
  destruct IH as [E|E].
  - rewrite E. now left.
  - destruct (Z.eqb_spec (IndexByte r c) (-1)); [now left | right; lia].
Qed.

Lemma byte_eqb_eq x y : Byte.eqb x y = true <-> x = y.
Proof.
  split; [apply Byte.byte_dec_bl | apply Byte.byte_dec_lb].
Qed.

Lemma split_lines_none s :
  IndexByte s newline = -1 -> split_lines s = ([], s).
Proof.
  induction s as [|x r IH]; cbn [IndexByte split_lines]; [reflexivity|].
  destruct (Byte.eqb x newline); [discriminate|].
  destruct (Z.eqb_spec (IndexByte r newline) (-1)) as [E|E]; [|pose proof (IndexByte_range r newline); lia].
  intros _. rewrite (IH E). reflexivity.
Qed.

Lemma split_lines_some s i :
  IndexByte s newline = i -> 0 <= i ->
  split_lines s =
    (firstn (Z.to_nat i) s :: complete_lines (skipn (Z.to_nat (i + 1)) s),
     pending (skipn (Z.to_nat (i + 1)) s)).
Proof.
  unfold complete_lines, pending.
  revert i. induction s as [|x r IH]; cbn [IndexByte split_lines]; intros i Hi Hpos; [lia|].
  destruct (Byte.eqb x newline).
  - subst i. change (Z.to_nat (0 + 1)) with 1%nat. change (Z.to_nat 0) with 0%nat.
    cbn [firstn skipn]. destruct (split_lines r); reflexivity.
  - destruct (Z.eqb_spec (IndexByte r newline) (-1)) as [E|E]; [lia|].
    pose proof (IndexByte_range r newline) as Hr.
    specialize (IH (IndexByte r newline) eq_refl ltac:(lia)).
    subst i.
    replace (Z.to_nat (IndexByte r newline + 1 + 1))
      with (S (Z.to_nat (IndexByte r newline + 1))) by lia.
    replace (Z.to_nat (IndexByte r newline + 1))
      with (S (Z.to_nat (IndexByte r newline))) in * by lia.
    rewrite IH. cbn [firstn]. rewrite skipn_cons. reflexivity.
Qed.

Lemma slice_ok {A} (s : list A) lo hi :
  0 <= lo <= hi -> hi <= len s ->
  slice s lo hi = Done (firstn (Z.to_nat (hi - lo)) (skipn (Z.to_nat lo) s)).
Proof.
  intros H1 H2. unfold slice.
  destruct (Z.leb_spec 0 lo), (Z.leb_spec lo hi), (Z.leb_spec hi (len s)); try lia.
  reflexivity.
Qed.

Lemma Slice_ok b : wf_buffer b -> Buf.Slice b = Done (unconsumed b).
Proof.
  intros Hwf. unfold Buf.Slice, unconsumed, wf_buffer in *.
  rewrite slice_ok by lia. f_equal. apply firstn_all2.
  rewrite length_skipn. unfold len in *. lia.
Qed.

Lemma len_unconsumed b : wf_buffer b -> len (unconsumed b) = Buf.SliceLength b.
Proof.
  unfold wf_buffer, unconsumed, Buf.SliceLength, len. intros Hwf.
  rewrite length_skipn. lia.
Qed.

Lemma SliceNext_ok b n :
  wf_buffer b -> 0 <= n <= Buf.SliceLength b ->
  Buf.SliceNext b n = Done (firstn (Z.to_nat n) (unconsumed b)).
Proof.
  intros Hwf Hn. unfold Buf.SliceNext, unconsumed, wf_buffer, Buf.SliceLength in *.
  rewrite slice_ok by lia. do 2 f_equal. lia.
Qed.

Lemma step_spec cb payload b :
  wf_buffer b ->
  CW.step cb payload b =
    let pos := IndexByte (unconsumed b) newline in
    if pos =? -1 then Done None
    else Done (Some (line_call cb payload (firstn (Z.to_nat pos) (unconsumed b)),
                     Buf.IncrementOffset b (pos + 1))).
Proof.
  intros Hwf. unfold CW.step. rewrite Slice_ok by assumption. cbn [bind].
  pose proof (IndexByte_range (unconsumed b) newline) as Hr.
  rewrite len_unconsumed in Hr by assumption.
  cbv zeta. destruct (Z.eqb_spec (IndexByte (unconsumed b) newline) (-1)); [reflexivity|].
  rewrite SliceNext_ok by (assumption || lia). reflexivity.
Qed.

Lemma unconsumed_advance b n :
  wf_buffer b -> 0 <= n <= Buf.SliceLength b ->
  wf_buffer (Buf.IncrementOffset b n)
  /\ unconsumed (Buf.IncrementOffset b n) = skipn (Z.to_nat n) (unconsumed b).
Proof.
  unfold wf_buffer, unconsumed, Buf.IncrementOffset, Buf.SliceLength.
  cbn [byteBuffer LastNewlineOffset]. intros Hwf Hn. split; [lia|].
  rewrite skipn_skipn. f_equal. lia.
Qed.

(** The loop emits the complete lines of the unconsumed bytes and stops with
    the offset in front of what follows the last newline. *)
Lemma scan_spec cb payload b :
  wf_buffer b ->
  CW.scan cb payload b =
    Done (mkBuffer (byteBuffer b) (len (byteBuffer b) - len (pending (unconsumed b))),
          negb (Nat.eqb (List.length (complete_lines (unconsumed b))) 0),
          map (line_call cb payload) (complete_lines (unconsumed b))).
Proof.
  funelim (CW.scan cb payload b); intros Hwf.
  all: repeat match goal with Hsig : @eq (sigma _) _ _ |- _ => clear Hsig end.
  all: clear Heqcall.
  all: match goal with Hs : CW.step _ _ _ = _ |- _ => rewrite step_spec in Hs by assumption; cbv zeta in Hs end.
  all: pose proof (IndexByte_range (unconsumed b) newline) as Hr;
       rewrite len_unconsumed in Hr by assumption.
  all: destruct (Z.eqb_spec (IndexByte (unconsumed b) newline) (-1)) as [E|E]; try discriminate.
  - match goal with Hs : Done _ = Done _ |- _ => inversion Hs; subst; clear Hs end.
    destruct (unconsumed_advance b (IndexByte (unconsumed b) newline + 1)) as [Hwf' Hun];
      [assumption | lia |].
    match goal with IH : wf_buffer _ -> _ |- _ => rewrite (IH Hwf') end.
    rewrite Hun. unfold complete_lines, pending.
    rewrite (split_lines_some (unconsumed b) _ eq_refl) by lia.
    reflexivity.
  - unfold complete_lines, pending. rewrite (split_lines_none _ E).
    cbn [fst snd map List.length Nat.eqb negb].
    rewrite len_unconsumed by assumption. unfold Buf.SliceLength.
    destruct b as [bb off]. cbn [byteBuffer LastNewlineOffset].
    replace (len bb - (len bb - off)) with off by lia. reflexivity.
Qed.

(** ** [split_lines] *)

Lemma split_lines_app s p :
  split_lines (s ++ p) =
    (complete_lines s ++ complete_lines (pending s ++ p), pending (pending s ++ p)).
Proof.
  unfold complete_lines, pending.
  induction s as [|x r IH]; cbn [app split_lines fst snd].
  - destruct (split_lines p); reflexivity.
  - rewrite IH. destruct (split_lines r) as [ls rest]. cbn [fst snd].
    destruct (Byte.eqb x newline) eqn:Ex; cbn [fst snd app]; [reflexivity|].
    destruct ls as [|l ls']; cbn [fst snd app split_lines].
    + rewrite Ex. destruct (split_lines (rest ++ p)) as [ls2 rest2]. cbn [fst snd].
      destruct ls2; reflexivity.
    + reflexivity.
Qed.

Lemma complete_lines_app s p :
  complete_lines (s ++ p) = complete_lines s ++ complete_lines (pending s ++ p).
Proof. unfold complete_lines at 1. rewrite split_lines_app. reflexivity. Qed.

Lemma pending_app s p : pending (s ++ p) = pending (pending s ++ p).
Proof. unfold pending at 1. rewrite split_lines_app. reflexivity. Qed.

(** Nothing is lost: the lines with their terminators, then the rest. *)
Lemma split_lines_rejoin s : rejoin (complete_lines s) ++ pending s = s.
Proof.
  unfold complete_lines, pending, rejoin.
  induction s as [|x r IH]; cbn [split_lines]; [reflexivity|].
  destruct (split_lines r) as [ls rest]. cbn [fst snd] in IH.
  destruct (Byte.eqb x newline) eqn:Ex; cbn [fst snd flat_map app].
  - apply byte_eqb_eq in Ex. subst x. now f_equal.
  - destruct ls as [|l ls']; cbn [fst snd flat_map app] in *; now f_equal.
Qed.

Lemma len_pending_le s : len (pending s) <= len s.
Proof.
  rewrite <- (split_lines_rejoin s) at 2. rewrite len_app.
  pose proof (len_nonneg (rejoin (complete_lines s))). lia.
Qed.

Lemma skipn_pending pre s :
  skipn (Z.to_nat (len (pre ++ s) - len (pending s))) (pre ++ s) = pending s.
Proof.
  rewrite <- (split_lines_rejoin s) at 1 3.
  rewrite app_assoc, len_app.
  replace (_ + _ - _) with (len (pre ++ rejoin (complete_lines s))) by lia.
  unfold len. rewrite Nat2Z.id, skipn_app, skipn_all, Nat.sub_diag. reflexivity.
Qed.

Lemma split_lines_no_newline s : no_newline s -> split_lines s = ([], s).
Proof.
  unfold no_newline. induction s as [|x r IH]; cbn [split_lines]; intros Hn; [reflexivity|].
  rewrite IH by (intros Hin; apply Hn; now right).
  destruct (Byte.eqb x newline) eqn:Ex; [|reflexivity].
  apply byte_eqb_eq in Ex. exfalso. apply Hn. now left.
Qed.

Lemma split_lines_line l r :
  no_newline l ->
  split_lines (l ++ newline :: r) = (l :: complete_lines r, pending r).
Proof.
  unfold no_newline, complete_lines, pending.
  induction l as [|x l IH]; cbn [app split_lines]; intros Hn.
  - destruct (split_lines r). reflexivity.
  - rewrite IH by (intros Hin; apply Hn; now right).
    destruct (Byte.eqb x newline) eqn:Ex; [|reflexivity].
    apply byte_eqb_eq in Ex. exfalso. apply Hn. now left.
Qed.

(** A stream made of terminated lines and a newline-free rest is read back
    as those lines and that rest. *)
Lemma split_lines_terminated (lines : list string) (rest : list byte) :
  Forall (fun l => no_newline (list_byte_of_string l)) lines ->
  no_newline rest ->
  split_lines (terminated lines ++ rest) = (map list_byte_of_string lines, rest).
Proof.
  intros Hl Hr. induction Hl as [|l ls Hn _ IH]; cbn [terminated flat_map map app].
  - now apply split_lines_no_newline.
  - rewrite <- !app_assoc. cbn [app]. rewrite split_lines_line by assumption.
    unfold complete_lines, pending. fold (terminated ls). rewrite IH. reflexivity.
Qed.

(** ** [Write] and [Finalize] on a well-formed writer *)

Lemma tracks_Append b u p : tracks b u -> tracks (Buf.Append b p) (u ++ p).
Proof.
  unfold tracks, wf_buffer, unconsumed, Buf.Append. cbn [byteBuffer LastNewlineOffset].
  intros [Hwf Hu]. rewrite len_app. pose proof (len_nonneg p). split; [lia|].
  rewrite skipn_app, Hu. f_equal.
  replace (_ - _)%nat with 0%nat by (unfold len in *; lia). reflexivity.
Qed.

Lemma unconsumed_prefix b : wf_buffer b ->
  byteBuffer b = firstn (Z.to_nat (LastNewlineOffset b)) (byteBuffer b) ++ unconsumed b.
Proof. intros _. unfold unconsumed. now rewrite firstn_skipn. Qed.

Lemma Write_with_callback cw cb p u :
  callback cw = Some cb ->
  tracks (buffer cw) u ->
  exists b',
    CW.Write cw p =
      Done (with_buffer cw b',
            map (line_call cb (callbackPayload cw)) (complete_lines (u ++ p)),
            (len p, None))
    /\ tracks b' (pending (u ++ p))
    /\ (keepBuffer cw = true -> byteBuffer b' = byteBuffer (buffer cw) ++ p)
    /\ (keepBuffer cw = false -> LastNewlineOffset (buffer cw) = 0 ->
        LastNewlineOffset b' = 0).
Proof.
  intros Hcb Htr. unfold CW.Write. rewrite Hcb.
  pose proof (tracks_Append _ _ p Htr) as [Hwf Hun].
  rewrite scan_spec by assumption. rewrite Hun. cbn [bind].
  set (b0 := Buf.Append (buffer cw) p) in *.
  set (b1 := mkBuffer (byteBuffer b0) (len (byteBuffer b0) - len (pending (u ++ p)))).
  assert (Hpre : exists pre, byteBuffer b0 = pre ++ (u ++ p)
                             /\ pre = firstn (Z.to_nat (LastNewlineOffset b0)) (byteBuffer b0)).
  { eexists. split; [|reflexivity]. rewrite <- Hun. now apply unconsumed_prefix. }
  destruct Hpre as (pre & Hpre & Hpre_def).
  assert (Htr1 : tracks b1 (pending (u ++ p))).
  { unfold tracks, wf_buffer, unconsumed, b1. cbn [byteBuffer LastNewlineOffset].
    pose proof (len_pending_le (u ++ p)). pose proof (len_nonneg (pending (u ++ p))).
    split.
    - rewrite Hpre, len_app. pose proof (len_nonneg pre). lia.
    - rewrite Hpre. apply skipn_pending. }
  destruct (negb (Nat.eqb (List.length (complete_lines (u ++ p))) 0) && negb (keepBuffer cw))
    eqn:Htrunc.
  - unfold Buf.Truncate. rewrite Slice_ok by apply Htr1. cbn [bind].
    destruct Htr1 as [_ ->].
    exists (mkBuffer (pending (u ++ p)) 0). split; [reflexivity|].
    split; [|split].
    + unfold tracks, wf_buffer, unconsumed. cbn [byteBuffer LastNewlineOffset].
      pose proof (len_nonneg (pending (u ++ p))). split; [lia | reflexivity].
    + intros Hk. rewrite Hk in Htrunc. rewrite andb_false_r in Htrunc. discriminate.
    + reflexivity.
  - cbn [bind]. exists b1. split; [reflexivity|]. split; [assumption|]. split.
    + reflexivity.
    + intros Hk Hoff. rewrite Hk in Htrunc. cbn [negb] in Htrunc.
      rewrite andb_true_r in Htrunc. apply negb_false_iff, Nat.eqb_eq in Htrunc.
      unfold b1. cbn [LastNewlineOffset].
      assert (Hp : pending (u ++ p) = u ++ p).
      { rewrite <- (split_lines_rejoin (u ++ p)) at 2.
        destruct (complete_lines (u ++ p)); [reflexivity | discriminate]. }
      rewrite Hp, Hpre, len_app.
      unfold b0, Buf.Append in Hpre_def. cbn [LastNewlineOffset] in Hpre_def.
      rewrite Hoff in Hpre_def. cbn [Z.to_nat firstn] in Hpre_def. subst pre.
      unfold len. cbn [List.length]. lia.
Qed.

Lemma pending_no_newline s : no_newline (pending s).
Proof.
  unfold no_newline, pending. induction s as [|x r IH]; cbn [split_lines]; [now intros []|].
  destruct (split_lines r) as [ls rest]. cbn [snd] in IH.
  destruct (Byte.eqb x newline) eqn:Ex; [exact IH|].
  destruct ls; cbn [snd]; [|exact IH].
  intros [E|Hin]; [|now apply IH].
  subst x. rewrite (proj2 (byte_eqb_eq newline newline) eq_refl) in Ex. discriminate.
Qed.

Lemma with_buffer_same cw : with_buffer cw (buffer cw) = cw.
Proof. destruct cw; reflexivity. Qed.

Lemma WriteAll_with_callback chunks : forall cw cb u,
  callback cw = Some cb ->
  tracks (buffer cw) u ->
  no_newline u ->
  exists b',
    WriteAll cw chunks =
      Done (with_buffer cw b',
            map (line_call cb (callbackPayload cw)) (complete_lines (u ++ List.concat chunks)))
    /\ tracks b' (pending (u ++ List.concat chunks))
    /\ (keepBuffer cw = true -> byteBuffer b' = byteBuffer (buffer cw) ++ List.concat chunks)
    /\ (keepBuffer cw = false -> LastNewlineOffset (buffer cw) = 0 ->
        LastNewlineOffset b' = 0).
Proof.
  induction chunks as [|p rest IH]; intros cw cb u Hcb Htr Hnl; cbn [WriteAll List.concat].
  - rewrite !app_nil_r. unfold complete_lines, pending.
    rewrite (split_lines_no_newline u Hnl). cbn [fst snd map].
    exists (buffer cw). rewrite with_buffer_same. repeat split; try apply Htr; auto.
  - destruct (Write_with_callback cw cb p u Hcb Htr) as (b1 & Hw & Htr1 & Hk1 & Ho1).
    rewrite Hw. cbn [bind].
    destruct (IH (with_buffer cw b1) cb (pending (u ++ p)) Hcb Htr1 (pending_no_newline _))
      as (b2 & Hw2 & Htr2 & Hk2 & Ho2).
    rewrite Hw2. cbn [bind]. exists b2. cbn in Hk2, Ho2 |- *.
    rewrite app_assoc, <- map_app, <- complete_lines_app, pending_app.
    split; [reflexivity|]. split; [exact Htr2|]. split.
    + intros Hk. rewrite (Hk2 Hk), (Hk1 Hk), <- app_assoc. reflexivity.
    + intros Hk Ho. apply (Ho2 Hk). now apply Ho1.
Qed.

Lemma tracks_fresh : tracks (mkBuffer [] 0) [].
Proof. unfold tracks, wf_buffer, unconsumed, len. cbn. split; [lia | reflexivity]. Qed.

Lemma WriteAll_without_callback chunks : forall cw,
  callback cw = None ->
  WriteAll cw chunks
  = Done (with_buffer cw (mkBuffer (byteBuffer (buffer cw) ++ List.concat chunks)
                                   (LastNewlineOffset (buffer cw))), []).
Proof.
  induction chunks as [|p rest IH]; intros cw Hcb; cbn [WriteAll List.concat].
  - rewrite app_nil_r. destruct cw as [t [bb off] k c pl]. reflexivity.
  - unfold CW.Write. rewrite Hcb. cbn [bind]. rewrite IH by exact Hcb. cbn [bind].
    unfold with_buffer, Buf.Append. cbn. rewrite <- app_assoc. reflexivity.
Qed.

(** [Finalize] emits the unconsumed bytes, if any, as one last line. *)
Lemma Finalize_with_callback cw cb u :
  callback cw = Some cb ->
  tracks (buffer cw) u ->
  CW.Finalize cw =
    if is_empty u then Done (cw, [])
    else Done (with_buffer cw (if keepBuffer cw
                               then Buf.IncrementOffset (buffer cw) (len u)
                               else Buf.Reset (buffer cw)),
               [line_call cb (callbackPayload cw) u]).
Proof.
  intros Hcb [Hwf Hu]. unfold CW.Finalize. rewrite Hcb.
  rewrite <- (len_unconsumed _ Hwf), Hu.
  destruct u as [|x u']; cbn [is_empty]; [reflexivity|].
  assert (Hpos : 0 < len (x :: u')) by (unfold len; cbn [List.length]; lia).
  destruct (Z.ltb_spec 0 (len (x :: u'))); [|lia].
  rewrite SliceNext_ok; [|assumption | rewrite <- (len_unconsumed _ Hwf), Hu; lia].
  rewrite Hu. unfold len at 1. rewrite Nat2Z.id, firstn_all. cbn [bind].
  destruct (keepBuffer cw); reflexivity.
Qed.

Lemma string_bytes_roundtrip (s : string) :
  string_of_list_byte (list_byte_of_string s) = s.
Proof. apply string_of_list_byte_of_string. Qed.

Lemma is_empty_bytes (s : string) :
  is_empty (list_byte_of_string s) = match s with EmptyString => true | _ => false end.
Proof. destruct s; reflexivity. Qed.

(** A whole session on a fresh writer with a callback: the writes emit the
    terminated lines, [Finalize] emits the rest if there is one. *)
Lemma session_with_callback t cb payload keep (lines : list string) (rest : string) chunks :
  Forall (fun l => no_newline (list_byte_of_string l)) lines ->
  no_newline (list_byte_of_string rest) ->
  List.concat chunks = terminated lines ++ list_byte_of_string rest ->
  exists cw1 cw2,
    WriteAll (NewCompositeWriter t (Some cb) payload keep) chunks
      = Done (cw1, map (fun l => Invoke cb l payload) lines)
    /\ CW.Finalize cw1
      = Done (cw2, match rest with
                   | EmptyString => []
                   | _ => [Invoke cb rest payload]
                   end)
    /\ (rest = EmptyString -> cw2 = cw1).
Proof.
  intros Hl Hr Hs.
  destruct (WriteAll_with_callback chunks (NewCompositeWriter t (Some cb) payload keep) cb []
              eq_refl tracks_fresh (fun H => H))
    as (b1 & Hw & Htr & _).
  cbn [app callbackPayload NewCompositeWriter] in Hw, Htr.
  unfold complete_lines in Hw. unfold pending in Htr.
  rewrite Hs, split_lines_terminated in Hw, Htr by assumption. cbn [fst snd] in Hw, Htr.
  rewrite map_map in Hw. unfold line_call in Hw.
  rewrite (map_ext _ (fun l => Invoke cb l payload)) in Hw
    by (intros l; now rewrite string_bytes_roundtrip).
  pose proof (Finalize_with_callback
                (with_buffer (NewCompositeWriter t (Some cb) payload keep) b1)
                cb (list_byte_of_string rest) eq_refl Htr) as Hf.
  rewrite is_empty_bytes in Hf. unfold line_call in Hf.
  rewrite string_bytes_roundtrip in Hf.
  destruct rest as [|c rest']; eexists; eexists;
    (split; [exact Hw | split; [exact Hf | try reflexivity; discriminate]]).
Qed.

Lemma len_pending_le_longest s : len (pending s) <= longest_line s.
Proof.
  unfold longest_line. induction (complete_lines s) as [|l ls IH]; cbn [app map fold_right]; lia.
Qed.

Ltac no_newline_tac :=
  repeat constructor; unfold no_newline; cbn; intuition discriminate.

(** ** Writers stay well formed *)

Lemma ToString_unfold cw :
  CW.ToString cw =
    if keepBuffer cw
    then Done (string_of_list_byte (byteBuffer (buffer cw)))
    else Panicked "KeepBuffer = false for this composite writer".
Proof. unfold CW.ToString, Buf.ToString. destruct (keepBuffer cw); reflexivity. Qed.

Lemma Write_wf cw p :
  wf_buffer (buffer cw) ->
  exists cw' calls,
    CW.Write cw p = Done (cw', calls, (len p, None))
    /\ wf_buffer (buffer cw')
    /\ keepBuffer cw' = keepBuffer cw
    /\ Type_ cw' = Type_ cw.
Proof.
  intros Hwf. destruct (callback cw) as [cb|] eqn:Hcb.
  - destruct (Write_with_callback cw cb p _ Hcb (conj Hwf eq_refl)) as (b' & Hw & [Hwf' _] & _).
    eexists. eexists. split; [exact Hw|]. cbn [buffer with_buffer keepBuffer Type_].
    split; [exact Hwf' | split; reflexivity].
  - unfold CW.Write. rewrite Hcb. eexists. eexists. split; [reflexivity|].
    split; [|split; reflexivity]. cbn [buffer with_buffer].
    exact (proj1 (tracks_Append _ _ p (conj Hwf eq_refl))).
Qed.

Lemma Finalize_wf cw :
  wf_buffer (buffer cw) ->
  exists cw' calls,
    CW.Finalize cw = Done (cw', calls)
    /\ wf_buffer (buffer cw')
    /\ keepBuffer cw' = keepBuffer cw.
Proof.
  intros Hwf. destruct (callback cw) as [cb|] eqn:Hcb.
  - rewrite (Finalize_with_callback cw cb _ Hcb (conj Hwf eq_refl)).
    destruct (is_empty (unconsumed (buffer cw))) eqn:He.
    + exists cw, []. split; [reflexivity | split; [assumption | reflexivity]].
    + eexists. eexists. split; [reflexivity|]. split; [|reflexivity].
      cbn [buffer with_buffer]. destruct (keepBuffer cw); [|apply tracks_fresh].
      apply unconsumed_advance; [assumption|].
      rewrite <- (len_unconsumed _ Hwf). pose proof (len_nonneg (unconsumed (buffer cw))). lia.
  - unfold CW.Finalize. rewrite Hcb. exists cw, [].
    split; [reflexivity | split; [assumption | reflexivity]].
Qed.

Lemma write_sink_ok s p :
  sink_ok s -> exists s' fx, write_sink s p = Done (s', fx) /\ sink_ok s'.
Proof.
  destruct s as [| |cw|]; cbn [write_sink sink_ok]; intros Hwf;
    try (eexists; eexists; split; [reflexivity | exact I]).
  destruct (Write_wf cw p Hwf) as (cw' & calls & Hw & Hwf' & _).
  rewrite Hw. cbn [bind]. eexists. eexists. split; [reflexivity | exact Hwf'].
Qed.

Lemma deliver_ok output : forall cmd,
  sink_ok (cmd_Stdout cmd) -> sink_ok (cmd_Stderr cmd) ->
  exists cmd' fx,
    deliver output cmd = Done (cmd', fx)
    /\ sink_ok (cmd_Stdout cmd') /\ sink_ok (cmd_Stderr cmd').
Proof.
  induction output as [|[stream p] rest IH]; intros cmd Ho He; cbn [deliver].
  - exists cmd, []. now repeat split.
  - assert (Hstep : exists cmd1 fx1,
      (if stream =? STDOUT
       then '(s, fx) <- write_sink (cmd_Stdout cmd) p ;; Done (set_cmd_Stdout s cmd, fx)
       else if stream =? STDERR
            then '(s, fx) <- write_sink (cmd_Stderr cmd) p ;; Done (set_cmd_Stderr s cmd, fx)
            else Done (cmd, [])) = Done (cmd1, fx1)
      /\ sink_ok (cmd_Stdout cmd1) /\ sink_ok (cmd_Stderr cmd1)).
    { destruct (stream =? STDOUT); [|destruct (stream =? STDERR)].
      - destruct (write_sink_ok _ p Ho) as (s' & fx & Hw & Hs'). rewrite Hw. cbn [bind].
        eexists. eexists. split; [reflexivity|]. now split.
      - destruct (write_sink_ok _ p He) as (s' & fx & Hw & Hs'). rewrite Hw. cbn [bind].
        eexists. eexists. split; [reflexivity|]. now split.
      - eexists. eexists. split; [reflexivity|]. now split. }
    destruct Hstep as (cmd1 & fx1 & -> & Ho1 & He1). cbn [bind].
    destruct (IH cmd1 Ho1 He1) as (cmd2 & fx2 & -> & Ho2 & He2). cbn [bind].
    eexists. eexists. split; [reflexivity|]. now split.
Qed.

Lemma finalize_sink_ok s :
  sink_ok s -> exists s' text fx, finalize_sink s = Done (s', text, fx) /\ sink_ok s'.
Proof.
  destruct s as [| |cw|]; cbn [finalize_sink sink_ok]; intros Hwf;
    try (eexists; eexists; eexists; split; [reflexivity | exact I]).
  destruct (Finalize_wf cw Hwf) as (cw' & calls & Hf & Hwf' & Hk).
  rewrite Hf. cbn [bind]. rewrite ToString_unfold.
  destruct (keepBuffer cw'); cbn [bind];
    eexists; eexists; eexists; (split; [reflexivity|]); cbn [sink_ok buffer with_buffer].
  - apply tracks_fresh.
  - exact Hwf'.
Qed.

(** ** [Begin] and [Run] *)

Lemma Begin_ExitCode os self : ExitCode (fst (fst (Begin os self))) = ExitCode self.
Proof.
  unfold Begin.
  destruct (AutoReadStdout self); [destruct (os_StdoutPipe os)|]; cbn; try reflexivity.
  all: destruct (AutoReadStderr self); [destruct (os_StderrPipe os)|]; cbn; reflexivity.
Qed.

Lemma Begin_error os self self' err fx :
  Begin os self = (self', Some err, fx) ->
  WrappedCmd self' = WrappedCmd self
  /\ (os_StdoutPipe os = inr err \/ os_StderrPipe os = inr err).
Proof.
  unfold Begin.
  destruct (AutoReadStdout self); [destruct (os_StdoutPipe os) eqn:Eo|]; cbn.
  2: { intros E. inversion E; subst. split; [reflexivity | now left]. }
  all: destruct (AutoReadStderr self); [destruct (os_StderrPipe os) eqn:Ee|]; cbn;
    intros E; inversion E; subst; split; try reflexivity; now right.
Qed.

Lemma Begin_success os self self' fx :
  Begin os self = (self', None, fx) ->
  exists cmd,
    WrappedCmd self' = Some cmd
    /\ sinks_ok cmd
    /\ (AutoReadStdout self = true ->
        exists r, os_StdoutPipe os = inl r /\ StdoutReader self' = Some r)
    /\ (AutoReadStdout self = false -> StdoutReader self' = StdoutReader self)
    /\ (AutoReadStderr self = true ->
        exists r, os_StderrPipe os = inl r /\ StderrReader self' = Some r)
    /\ (AutoReadStderr self = false -> StderrReader self' = StderrReader self).
Proof.
  unfold Begin.
  destruct (AutoReadStdout self); [destruct (os_StdoutPipe os) eqn:Eo|]; cbn;
    try discriminate.
  all: destruct (AutoReadStderr self); [destruct (os_StderrPipe os) eqn:Ee|]; cbn;
    try discriminate.
  all: intros E; inversion E; subst; clear E; cbn.
  all: eexists; split; [reflexivity|].
  all: split; [destruct (Environment self); split; exact I|].
  all: repeat split; try discriminate; intros _; eauto.
Qed.

Lemma ebind_inl {A B} (m : exec A) (k : A -> exec B) st a st' :
  m st = (inl a, st') -> ebind m k st = k a st'.
Proof. unfold ebind. now intros ->. Qed.

Lemma lift_Done {A} (a : A) st : lift (Done a) st = (inl a, st).
Proof. reflexivity. Qed.

Section ExecutionFacts.

Context {P : Platform}.

Lemma auto_initialize_ok os self fx :
  process_runs os -> request_ok self ->
  exists self' fx',
    auto_initialize os (self, fx) = (inl tt, (self', fx')) /\ prepared self'.
Proof.
  intros ((ro & Hpo & Hro) & (re & Hpe & Hre) & _) (Hr1 & Hr2 & Hc).
  unfold auto_initialize, ebind, get_self, call_Begin. cbn [fst snd].
  destruct (WrappedCmd self) as [cmd|] eqn:Hw.
  - eexists. eexists. split; [reflexivity|]. repeat split; eauto.
  - cbn [fst snd]. destruct (Begin os self) as [[self' [err|]] fx'] eqn:Hb.
    + apply Begin_error in Hb. destruct Hb as [_ [E|E]]; congruence.
    + eexists. eexists. split; [reflexivity|].
      apply Begin_success in Hb.
      destruct Hb as (cmd & Hw' & Hs & Ho1 & Ho0 & He1 & He0).
      split; [|split; [|eauto]].
      * destruct (AutoReadStdout self).
        -- destruct (Ho1 eq_refl) as (r & E & ->). congruence.
        -- now rewrite Ho0.
      * destruct (AutoReadStderr self).
        -- destruct (He1 eq_refl) as (r & E & ->). congruence.
        -- now rewrite He0.
Qed.

Lemma start_process_ok os self fx :
  os_Start os = None -> prepared self ->
  exists self',
    start_process os (self, fx) = (inl tt, (self', fx)) /\ prepared self'.
Proof.
  intros Hs (Hr1 & Hr2 & cmd & Hw & Ho & He).
  unfold start_process, ebind, get_cmd. cbn [fst snd]. rewrite Hw.
  destruct (cmd_Process cmd).
  - eexists. split; [reflexivity|]. repeat split; eauto. exists cmd. now repeat split.
  - rewrite Hs. eexists. split; [reflexivity|]. cbn.
    repeat split; eauto. eexists. split; [reflexivity|]. now split.
Qed.

Lemma read_stdout_ok self fx :
  prepared self ->
  exists self', read_stdout (self, fx) = (inl tt, (self', fx)) /\ prepared self'.
Proof.
  intros (Hr1 & Hr2 & Hc).
  unfold read_stdout, ebind, get_self. cbn [fst snd].
  destruct (StdoutReader self) as [r|] eqn:Er.
  - destruct Hr1 as [b Hb]. rewrite Hb. eexists. split; [reflexivity|].
    unfold prepared. cbn. try rewrite Er. repeat split; eauto; now exists b.
  - eexists. split; [reflexivity|]. unfold prepared. try rewrite Er. now repeat split.
Qed.

Lemma read_stderr_ok self fx :
  prepared self ->
  exists self', read_stderr (self, fx) = (inl tt, (self', fx)) /\ prepared self'.
Proof.
  intros (Hr1 & Hr2 & Hc).
  unfold read_stderr, ebind, get_self. cbn [fst snd].
  destruct (StderrReader self) as [r|] eqn:Er.
  - destruct Hr2 as [b Hb]. rewrite Hb. eexists. split; [reflexivity|].
    unfold prepared. cbn. try rewrite Er. repeat split; eauto; now exists b.
  - eexists. split; [reflexivity|]. unfold prepared. try rewrite Er. now repeat split.
Qed.

Lemma wait_process_ok os self fx :
  prepared self ->
  exists self' fx',
    wait_process os (self, fx) = (inl (os_Wait os), (self', fx')) /\ prepared self'.
Proof.
  intros (Hr1 & Hr2 & cmd & Hw & Ho & He).
  unfold wait_process, ebind, get_cmd. cbn [fst snd]. rewrite Hw.
  destruct (deliver_ok (os_output os) cmd Ho He) as (cmd' & fx' & Hd & Ho' & He').
  rewrite Hd. cbn. eexists. eexists. split; [reflexivity|].
  repeat split; eauto. eexists. split; [reflexivity|]. now split.
Qed.

Lemma finalize_stdout_ok self fx :
  prepared self ->
  exists self' fx',
    finalize_stdout (self, fx) = (inl tt, (self', fx')) /\ prepared self'.
Proof.
  intros (Hr1 & Hr2 & cmd & Hw & Ho & He).
  unfold finalize_stdout, ebind, get_cmd. cbn [fst snd]. rewrite Hw.
  destruct (finalize_sink_ok _ Ho) as (s' & text & fx' & Hf & Hs').
  rewrite Hf. cbn.
  destruct text; cbn; eexists; eexists; (split; [reflexivity|]);
    (repeat split; eauto); eexists; (split; [reflexivity|]); now split.
Qed.

Lemma finalize_stderr_ok self fx :
  prepared self ->
  exists self' fx',
    finalize_stderr (self, fx) = (inl tt, (self', fx')) /\ prepared self'.
Proof.
  intros (Hr1 & Hr2 & cmd & Hw & Ho & He).
  unfold finalize_stderr, ebind, get_cmd. cbn [fst snd]. rewrite Hw.
  destruct (finalize_sink_ok _ He) as (s' & text & fx' & Hf & Hs').
  rewrite Hf. cbn.
  destruct text; cbn; eexists; eexists; (split; [reflexivity|]);
    (repeat split; eauto); eexists; (split; [reflexivity|]); now split.
Qed.

Lemma classify_status w self fx :
  classify (wait_of_status w) (self, fx)
  = (inl tt, (set_ExitCode (ExitStatus w) self, fx)).
Proof.
  unfold classify, wait_of_status, modify. cbn [fst snd].
  destruct (Z.eqb_spec (ExitStatus w) 0) as [E|E]; [rewrite E|]; reflexivity.
Qed.

(** A process that runs and ends with wait status [w] makes [Run] return
    nil with the exit status of [w] as exit code. *)
Lemma Run_exit_status os self w :
  process_runs os -> request_ok self ->
  os_Wait os = wait_of_status w ->
  exists self' fx,
    Run os self = (self', Returned None, fx)
    /\ ExitCode self' = ExitStatus w
    /\ exists cmd, WrappedCmd self' = Some cmd.
Proof.
  intros Hos Hself Hwait. unfold Run, finish, conclude, Run_body.
  destruct (auto_initialize_ok os self [] Hos Hself) as (s1 & fx1 & E1 & H1).
  rewrite (ebind_inl _ _ _ _ _ E1).
  destruct (start_process_ok os s1 fx1 (proj2 (proj2 Hos)) H1) as (s2 & E2 & H2).
  rewrite (ebind_inl _ _ _ _ _ E2).
  destruct (read_stdout_ok s2 fx1 H2) as (s3 & E3 & H3).
  rewrite (ebind_inl _ _ _ _ _ E3).
  destruct (read_stderr_ok s3 fx1 H3) as (s4 & E4 & H4).
  rewrite (ebind_inl _ _ _ _ _ E4).
  destruct (wait_process_ok os s4 fx1 H4) as (s5 & fx5 & E5 & H5).
  rewrite (ebind_inl _ _ _ _ _ E5).
  destruct (finalize_stdout_ok s5 fx5 H5) as (s6 & fx6 & E6 & H6).
  rewrite (ebind_inl _ _ _ _ _ E6).
  destruct (finalize_stderr_ok s6 fx6 H6) as (s7 & fx7 & E7 & H7).
  rewrite (ebind_inl _ _ _ _ _ E7).
  rewrite Hwait, classify_status.
  eexists. eexists. split; [reflexivity|]. split; [reflexivity|].
  destruct H7 as (_ & _ & cmd & Hc & _). exists cmd. exact Hc.
Qed.

(** *** The exit code changes only in the last block *)

Lemma quiet_ret {A} (a : A) : quiet (ret a).
Proof. intros st. split; [reflexivity | discriminate]. Qed.

Lemma quiet_leave {A} r : r <> Returned None -> quiet (@leave A r).
Proof. intros Hr st. split; [reflexivity | cbn; intros E; apply Hr; now inversion E]. Qed.

Lemma quiet_ebind {A B} (m : exec A) (k : A -> exec B) :
  quiet m -> (forall a, quiet (k a)) -> quiet (ebind m k).
Proof.
  intros Hm Hk st. unfold ebind. specialize (Hm st).
  destruct (m st) as [[a|r] st1]; cbn [fst snd] in *.
  - destruct Hm as [Hm1 _]. destruct (Hk a st1) as [H1 H2].
    split; [congruence | assumption].
  - destruct Hm as [Hm1 Hm2]. split; [exact Hm1|].
    intros E. apply Hm2. now inversion E.
Qed.

Lemma quiet_modify f : (forall e, ExitCode (f e) = ExitCode e) -> quiet (modify f).
Proof. intros Hf st. split; [apply Hf | discriminate]. Qed.

Lemma quiet_get_self : quiet get_self.
Proof. intros st. split; [reflexivity | discriminate]. Qed.

Lemma quiet_get_cmd : quiet get_cmd.
Proof.
  intros st. unfold get_cmd. destruct (WrappedCmd (fst st)); split;
    try reflexivity; discriminate.
Qed.

Lemma quiet_put_cmd cmd : quiet (put_cmd cmd).
Proof. apply quiet_modify. reflexivity. Qed.

Lemma quiet_emit fx : quiet (emit fx).
Proof. intros st. split; [reflexivity | discriminate]. Qed.

Lemma quiet_lift {A} (o : outcome A) : quiet (lift o).
Proof. destruct o; [apply quiet_ret | apply quiet_leave; discriminate]. Qed.

Lemma quiet_call_Begin os : quiet (call_Begin os).
Proof.
  intros st. unfold call_Begin. pose proof (Begin_ExitCode os (fst st)) as H.
  destruct (Begin os (fst st)) as [[self' err] fx]. split; [exact H | discriminate].
Qed.

Ltac quiet_tac :=
  repeat first
    [ apply quiet_ebind; [|intros ?]
    | apply quiet_ret
    | apply quiet_get_self
    | apply quiet_get_cmd
    | apply quiet_put_cmd
    | apply quiet_emit
    | apply quiet_lift
    | apply quiet_call_Begin
    | apply quiet_leave; discriminate
    | apply quiet_modify; reflexivity
    | match goal with |- quiet (match ?x with _ => _ end) => destruct x end
    | match goal with |- quiet (if ?x then _ else _) => destruct x end ].

Lemma quiet_auto_initialize os : quiet (auto_initialize os).
Proof. unfold auto_initialize. quiet_tac. Qed.

Lemma quiet_start_process os : quiet (start_process os).
Proof. unfold start_process. quiet_tac. Qed.

Lemma quiet_read_stdout : quiet read_stdout.
Proof. unfold read_stdout. quiet_tac. Qed.

Lemma quiet_read_stderr : quiet read_stderr.
Proof. unfold read_stderr. quiet_tac. Qed.

Lemma quiet_wait_process os : quiet (wait_process os).
Proof. unfold wait_process. quiet_tac. Qed.

Lemma quiet_finalize_stdout : quiet finalize_stdout.
Proof. unfold finalize_stdout. quiet_tac. Qed.

Lemma quiet_finalize_stderr : quiet finalize_stderr.
Proof. unfold finalize_stderr. quiet_tac. Qed.

Lemma wait_process_value os st err st' :
  wait_process os st = (inl err, st') -> err = os_Wait os.
Proof.
  unfold wait_process, ebind, get_cmd.
  destruct (WrappedCmd (fst st)); [|discriminate].
  destruct (deliver (os_output os) c) as [[cmd1 fx]|msg]; cbn; [|discriminate].
  intros E. now inversion E.
Qed.

Lemma classified_classify os : classified os (classify (os_Wait os)).
Proof.
  intros [self fx]. unfold classify, leave, modify.
  destruct (os_Wait os) as [[[w|]|msg]|]; cbn [fst snd].
  - right. exists w. now split.
  - reflexivity.
  - reflexivity.
  - left. now split.
Qed.

Lemma classified_ebind {A} os (m : exec A) (k : A -> exec unit) :
  quiet m ->
  (forall st a st', m st = (inl a, st') -> classified os (k a)) ->
  classified os (ebind m k).
Proof.
  intros Hm Hk st. unfold ebind. destruct (Hm st) as [H1 H2].
  destruct (m st) as [[a|r] st1] eqn:E; cbn [fst snd] in *.
  - specialize (Hk st a st1 E st1).
    destruct (k a st1) as [[u|r] [self' fx]]; [exact Hk|].
    destruct r as [[e|]|msg]; [| exact Hk |]; congruence.
  - destruct st1 as [self' fx]. destruct r as [[e|]|msg]; cbn in *; congruence.
Qed.

Lemma classified_Run_body os : classified os (Run_body os).
Proof.
  unfold Run_body.
  apply classified_ebind; [apply quiet_auto_initialize | intros _ _ _ _].
  apply classified_ebind; [apply quiet_start_process | intros _ _ _ _].
  apply classified_ebind; [apply quiet_read_stdout | intros _ _ _ _].
  apply classified_ebind; [apply quiet_read_stderr | intros _ _ _ _].
  apply classified_ebind; [apply quiet_wait_process | intros st err st' E].
  apply wait_process_value in E. subst err.
  apply classified_ebind; [apply quiet_finalize_stdout | intros _ _ _ _].
  apply classified_ebind; [apply quiet_finalize_stderr | intros _ _ _ _].
  apply classified_classify.
Qed.

Lemma classified_RunWithCallbacks_body os cb1 cb2 p1 p2 k1 k2 :
  classified os (RunWithCallbacks_body os cb1 cb2 p1 p2 k1 k2).
Proof.
  unfold RunWithCallbacks_body.
  do 6 (apply classified_ebind; [quiet_tac | intros ? ? ? ?]).
  apply classified_Run_body.
Qed.

(** On a request without command, [Run] is [Begin] followed, when [Begin]
    succeeds, by the rest of [Run]. *)
Lemma Run_unprepared os self :
  WrappedCmd self = None ->
  Run os self =
    let '(s, e, fx) := Begin os self in
    match e with
    | Some err => (s, Returned (Some err), fx)
    | None => conclude (after_preparation os (s, fx))
    end.
Proof.
  intros Hw. unfold Run, finish, Run_body.
  change (conclude (ebind (auto_initialize os) (fun _ => after_preparation os) (self, []))
          = let '(s, e, fx) := Begin os self in
            match e with
            | Some err => (s, Returned (Some err), fx)
            | None => conclude (after_preparation os (s, fx))
            end).
  unfold ebind at 1. unfold auto_initialize, ebind, get_self, call_Begin.
  cbn [fst snd]. rewrite Hw. cbn [fst snd app].
  destruct (Begin os self) as [[s [err|]] fx]; reflexivity.
Qed.

End ExecutionFacts.

(** On Unix a process that exits with status [N] has wait status [N * 256]. *)
Lemma unix_ExitStatus_exited N :
  0 <= N <= 255 -> unix_ExitStatus (N * 256) = N.
Proof.
  intros HN. unfold unix_ExitStatus.
  change 127 with (Z.ones 7). change 255 with (Z.ones 8).
  rewrite !Z.land_ones by lia.
  rewrite Z.shiftr_div_pow2 by lia.
  change (2 ^ 8) with 256. change (2 ^ 7) with 128.
  rewrite Z.div_mul by lia.
  replace (N * 256) with (N * 2 * 128) by lia. rewrite Z.mod_mul by lia.
  cbn [Z.eqb]. apply Z.mod_small. lia.
Qed.

Lemma classified_exit_code_rule {P : Platform} os m self :
  classified os m -> exit_code_rule os self (finish m self).
Proof.
  intros Hm. specialize (Hm (self, [])). unfold exit_code_rule, finish, conclude.
  destruct (m (self, [])) as [[u|r] [s fx]]; cbn [fst] in Hm; [exact Hm|].
  destruct r as [[e|]|msg]; [exact Hm | contradiction | exact Hm].
Qed.

Lemma request_ok_New command args : request_ok (New command args).
Proof. unfold request_ok. cbn. repeat split. Qed.

(** On Unix, a new command whose process exits with status [N] ends with
    exit code [N] and a nil error. *)
Lemma Run_unix_exit_code os command args N :
  0 <= N <= 255 ->
  process_runs os ->
  os_Wait os = @wait_of_status unix (N * 256) ->
  exists self' fx,
    @Run unix os (New command args) = (self', Returned None, fx)
    /\ ExitCode self' = N.
Proof.
  intros HN Hos Hwait.
  destruct (@Run_exit_status unix os (New command args) (N * 256) Hos
              (request_ok_New command args) Hwait) as (self' & fx & HR & HE & _).
  exists self', fx. split; [exact HR|].
  rewrite HE. cbn [ExitStatus unix]. now apply unix_ExitStatus_exited.
Qed.

(** ** Lemmas for the further properties *)

Lemma tracks_offset b u :
  tracks b u -> LastNewlineOffset b = len (byteBuffer b) - len u.
Proof.
  intros [Hwf Hu]. rewrite <- Hu, (len_unconsumed _ Hwf). unfold Buf.SliceLength. lia.
Qed.

Lemma tracks_stream_buffer keep s : tracks (stream_buffer keep s) (pending s).
Proof.
  unfold stream_buffer, tracks, wf_buffer, unconsumed.
  pose proof (len_pending_le s). pose proof (len_nonneg (pending s)).
  destruct keep; cbn [byteBuffer LastNewlineOffset].
  - split; [lia|]. apply (skipn_pending [] s).
  - split; [lia | reflexivity].
Qed.

(** The state of a fresh writer with a callback depends on the stream only. *)
Lemma WriteAll_fresh_state t cb payload keep chunks :
  WriteAll (NewCompositeWriter t (Some cb) payload keep) chunks
  = Done (mkWriter t (stream_buffer keep (List.concat chunks)) keep (Some cb) payload,
          map (line_call cb payload) (complete_lines (List.concat chunks))).
Proof.
  destruct (WriteAll_with_callback chunks (NewCompositeWriter t (Some cb) payload keep) cb []
              eq_refl tracks_fresh (fun H => H))
    as (b1 & Hw & Htr & Hk & Ho).
  cbn [app NewCompositeWriter callbackPayload keepBuffer buffer byteBuffer
       LastNewlineOffset] in *.
  rewrite Hw. unfold with_buffer. cbn [Type_ keepBuffer callback callbackPayload].
  do 3 f_equal. pose proof (tracks_offset _ _ Htr) as Hoff.
  destruct b1 as [bb off]. cbn [byteBuffer LastNewlineOffset] in *.
  unfold stream_buffer. destruct keep.
  - rewrite (Hk eq_refl) in *. now subst off.
  - specialize (Ho eq_refl eq_refl). subst off.
    destruct Htr as [_ Hu]. unfold unconsumed in Hu. cbn in Hu. now subst bb.
Qed.

Lemma WriteAll_app chunks1 : forall cw chunks2,
  WriteAll cw (chunks1 ++ chunks2)
  = ('(cw1, calls1) <- WriteAll cw chunks1 ;;
     '(cw2, calls2) <- WriteAll cw1 chunks2 ;;
     Done (cw2, calls1 ++ calls2)).
Proof.
  induction chunks1 as [|p rest IH]; intros cw chunks2; cbn [app WriteAll bind].
  - destruct (WriteAll cw chunks2) as [[cw2 calls2]|]; reflexivity.
  - destruct (CW.Write cw p) as [[[cw1 calls1] r]|]; cbn [bind]; [|reflexivity].
    rewrite IH. destruct (WriteAll cw1 rest) as [[cw2 calls2]|]; cbn [bind]; [|reflexivity].
    destruct (WriteAll cw2 chunks2) as [[cw3 calls3]|]; cbn [bind]; [|reflexivity].
    now rewrite app_assoc.
Qed.

Lemma Finalize_stream_buffer t cb payload keep s :
  CW.Finalize (mkWriter t (stream_buffer keep s) keep (Some cb) payload)
  = Done (mkWriter t (if keep then mkBuffer s (len s) else mkBuffer [] 0)
                   keep (Some cb) payload,
          last_call cb payload s).
Proof.
  rewrite (Finalize_with_callback
             (mkWriter t (stream_buffer keep s) keep (Some cb) payload)
             cb (pending s) eq_refl (tracks_stream_buffer keep s)).
  unfold last_call. cbn [keepBuffer buffer callbackPayload].
  destruct (pending s) as [|x u] eqn:Hp; cbn [is_empty].
  - unfold stream_buffer. rewrite Hp. destruct keep; [|reflexivity].
    change (len []) with 0. now rewrite Z.sub_0_r.
  - unfold with_buffer, stream_buffer, Buf.IncrementOffset, Buf.Reset.
    rewrite Hp. destruct keep;
      cbn [Type_ keepBuffer callback callbackPayload buffer byteBuffer LastNewlineOffset];
      [|reflexivity].
    replace (len s - len (x :: u) + len (x :: u)) with (len s) by lia. reflexivity.
Qed.

Lemma complete_lines_no_newline s : Forall no_newline (complete_lines s).
Proof.
  unfold complete_lines, no_newline.
  induction s as [|x r IH]; cbn [split_lines fst]; [constructor|].
  destruct (split_lines r) as [ls rest]. cbn [fst] in IH.
  destruct (Byte.eqb x newline) eqn:Ex; cbn [fst].
  - constructor; [now intros [] | exact IH].
  - destruct ls as [|l ls']; cbn [fst]; [constructor|].
    inversion IH; subst. constructor; [|assumption].
    intros [E|Hin]; [|contradiction].
    subst x. rewrite (proj2 (byte_eqb_eq newline newline) eq_refl) in Ex. discriminate.
Qed.

Lemma length_complete_lines s :
  List.length (complete_lines s) = List.length (filter is_newline s).
Proof.
  unfold complete_lines, is_newline.
  induction s as [|x r IH]; cbn [split_lines filter fst]; [reflexivity|].
  destruct (split_lines r) as [ls rest]. cbn [fst] in IH.
  destruct (Byte.eqb x newline); cbn [fst List.length].
  - now rewrite IH.
  - destruct ls; cbn [fst List.length] in *; exact IH.
Qed.

Lemma bytes_string_roundtrip (l : list byte) :
  list_byte_of_string (string_of_list_byte l) = l.
Proof. apply list_byte_of_string_of_list_byte. Qed.

Lemma no_newline_app u v : no_newline u -> no_newline v -> no_newline (u ++ v).
Proof. unfold no_newline. intros Hu Hv Hin. apply in_app_or in Hin. tauto. Qed.

Lemma is_empty_pending s : is_empty (pending s) = negb (ends_open s).
Proof.
  unfold ends_open. induction s as [|x r _] using rev_ind; [reflexivity|].
  rewrite rev_app_distr. cbn [rev app]. rewrite negb_involutive.
  rewrite pending_app. unfold is_newline.
  destruct (Byte.eqb x newline) eqn:Ex.
  - apply byte_eqb_eq in Ex. subst x. unfold pending at 1.
    rewrite (split_lines_line (pending r) [] (pending_no_newline r)). reflexivity.
  - unfold pending at 1. rewrite split_lines_no_newline.
    + cbn [snd]. destruct (pending r); reflexivity.
    + apply no_newline_app; [apply pending_no_newline|].
      intros [E|[]]. subst x.
      rewrite (proj2 (byte_eqb_eq newline newline) eq_refl) in Ex. discriminate.
Qed.

Lemma flat_map_map {A B C} (f : B -> list C) (g : A -> B) l :
  flat_map f (map g l) = flat_map (fun x => f (g x)) l.
Proof. induction l as [|a l IH]; cbn; [reflexivity | now rewrite IH]. Qed.

Lemma rejoin_line_calls cb payload ls :
  flat_map (fun c => list_byte_of_string (inv_line c) ++ [newline])
           (map (line_call cb payload) ls)
  = rejoin ls.
Proof.
  rewrite flat_map_map. unfold rejoin. apply flat_map_ext. intros l.
  unfold line_call. cbn [inv_line]. now rewrite bytes_string_roundtrip.
Qed.

Lemma last_call_bytes cb payload s :
  flat_map (fun c => list_byte_of_string (inv_line c)) (last_call cb payload s) = pending s.
Proof.
  unfold last_call. destruct (pending s) as [|x u]; cbn [is_empty flat_map]; [reflexivity|].
  unfold line_call. cbn [inv_line]. now rewrite bytes_string_roundtrip, app_nil_r.
Qed.

Lemma Truncate_ok b :
  wf_buffer b -> Buf.Truncate b = Done (mkBuffer (unconsumed b) 0).
Proof. intros Hwf. unfold Buf.Truncate. now rewrite Slice_ok. Qed.

Lemma tracks_whole u : tracks (mkBuffer u 0) u.
Proof.
  unfold tracks, wf_buffer, unconsumed. cbn [byteBuffer LastNewlineOffset].
  pose proof (len_nonneg u). split; [lia | reflexivity].
Qed.

Lemma write_sink_no_writer s p : is_writer s = false -> write_sink s p = Done (s, []).
Proof. destruct s; [reflexivity | reflexivity | discriminate | reflexivity]. Qed.

Lemma deliver_no_writer output cmd :
  is_writer (cmd_Stdout cmd) = false -> is_writer (cmd_Stderr cmd) = false ->
  deliver output cmd = Done (cmd, []).
Proof.
  intros Ho He. induction output as [|[stream p] rest IH]; cbn [deliver]; [reflexivity|].
  rewrite !write_sink_no_writer by assumption. cbn [bind].
  assert (E1 : set_cmd_Stdout (cmd_Stdout cmd) cmd = cmd) by now destruct cmd.
  assert (E2 : set_cmd_Stderr (cmd_Stderr cmd) cmd = cmd) by now destruct cmd.
  rewrite E1, E2.
  destruct (stream =? STDOUT); [|destruct (stream =? STDERR)]; cbn [bind];
    rewrite IH; reflexivity.
Qed.

Lemma finalize_sink_no_writer s :
  is_writer s = false -> finalize_sink s = Done (s, None, []).
Proof. destruct s; [reflexivity | reflexivity | discriminate | reflexivity]. Qed.

Lemma fold_env_entries env base :
  fold_left (fun e kv => e ++ [(fst kv ++ "=" ++ snd kv)%string]) env base
  = base ++ map env_entry env.
Proof.
  revert base. induction env as [|kv env IH]; intros base; cbn [fold_left map].
  - now rewrite app_nil_r.
  - rewrite IH, <- app_assoc. reflexivity.
Qed.

Lemma Begin_pipes_ok os self r1 r2 :
  os_StdoutPipe os = inl r1 -> os_StderrPipe os = inl r2 ->
  Begin os self
  = (set_WrappedCmd
       (Some (prepared_cmd os self (pipe_sink (AutoReadStdout self))
                           (pipe_sink (AutoReadStderr self))))
       (with_readers r1 r2 self),
     None, begin_log self).
Proof.
  intros Hp1 Hp2. unfold Begin, prepared_cmd, begin_log, with_readers, pipe_sink.
  rewrite Hp1.
  destruct (AutoReadStdout self); cbn [set_StdoutReader AutoReadStderr]; rewrite ?Hp2;
    destruct (AutoReadStderr self);
    cbn [set_StderrReader set_StdoutReader Environment LogExecution Command Args];
    destruct (Environment self) as [env|]; cbn [option_map];
    rewrite ?fold_env_entries; reflexivity.
Qed.

Lemma Begin_both_pipes os self r1 r2 :
  AutoReadStdout self = true -> AutoReadStderr self = true ->
  os_StdoutPipe os = inl r1 -> os_StderrPipe os = inl r2 ->
  Begin os self
  = (set_WrappedCmd (Some (prepared_cmd os self SinkPipe SinkPipe))
       (set_StderrReader (Some r2) (set_StdoutReader (Some r1) self)),
     None, begin_log self).
Proof.
  intros Ho He Hp1 Hp2. unfold Begin, prepared_cmd, begin_log. rewrite Ho, Hp1.
  cbn [set_StdoutReader AutoReadStderr]. rewrite He, Hp2.
  cbn [set_StderrReader set_StdoutReader Environment LogExecution Command Args].
  destruct (Environment self) as [env|]; cbn [option_map];
    [rewrite fold_env_entries|]; reflexivity.
Qed.

Lemma Begin_no_pipes os self :
  AutoReadStdout self = false -> AutoReadStderr self = false ->
  Begin os self
  = (set_WrappedCmd (Some (prepared_cmd os self SinkNil SinkNil)) self,
     None, begin_log self).
Proof.
  intros Ho He. unfold Begin, prepared_cmd, begin_log. rewrite Ho, He.
  destruct (Environment self) as [env|]; cbn [option_map];
    [rewrite fold_env_entries|]; reflexivity.
Qed.

Lemma calls_of_app stream fx1 fx2 :
  calls_of stream (fx1 ++ fx2) = calls_of stream fx1 ++ calls_of stream fx2.
Proof. apply flat_map_app. Qed.

Lemma calls_of_begin_log stream self : calls_of stream (begin_log self) = [].
Proof. unfold begin_log. destruct (LogExecution self); reflexivity. Qed.

Lemma ebind_inr {A B} (m : exec A) (k : A -> exec B) st r st' :
  m st = (inr r, st') -> ebind m k st = (inr r, st').
Proof. unfold ebind. now intros ->. Qed.

Section StageEquations.

Context {P : Platform}.

Lemma start_process_eq os self fx cmd :
  WrappedCmd self = Some cmd -> cmd_Process cmd = false -> os_Start os = None ->
  start_process os (self, fx)
  = (inl tt, (set_WrappedCmd (Some (set_cmd_Process true cmd)) self, fx)).
Proof.
  intros Hc Hp Hs. unfold start_process, ebind, get_cmd. cbn [fst snd].
  rewrite Hc, Hp, Hs. reflexivity.
Qed.

Lemma start_process_fail os self fx cmd e :
  WrappedCmd self = Some cmd -> cmd_Process cmd = false -> os_Start os = Some e ->
  start_process os (self, fx) = (inr (Returned (Some e)), (self, fx)).
Proof.
  intros Hc Hp Hs. unfold start_process, ebind, get_cmd. cbn [fst snd].
  rewrite Hc, Hp, Hs. reflexivity.
Qed.

Lemma read_stdout_eq self fx r out :
  StdoutReader self = Some r -> ReadAll r = inl out ->
  read_stdout (self, fx) = (inl tt, (set_Stdout (string_of_list_byte out) self, fx)).
Proof.
  intros Hr Ha. unfold read_stdout, ebind, get_self. cbn [fst snd].
  rewrite Hr, Ha. reflexivity.
Qed.

Lemma read_stdout_none self fx :
  StdoutReader self = None -> read_stdout (self, fx) = (inl tt, (self, fx)).
Proof.
  intros Hr. unfold read_stdout, ebind, get_self. cbn [fst snd]. now rewrite Hr.
Qed.

Lemma read_stderr_eq self fx r err :
  StderrReader self = Some r -> ReadAll r = inl err ->
  read_stderr (self, fx) = (inl tt, (set_Stderr (string_of_list_byte err) self, fx)).
Proof.
  intros Hr Ha. unfold read_stderr, ebind, get_self. cbn [fst snd].
  rewrite Hr, Ha. reflexivity.
Qed.

Lemma read_stderr_none self fx :
  StderrReader self = None -> read_stderr (self, fx) = (inl tt, (self, fx)).
Proof.
  intros Hr. unfold read_stderr, ebind, get_self. cbn [fst snd]. now rewrite Hr.
Qed.


Lemma wait_process_eq os self fx cmd cmd' fx' :
  WrappedCmd self = Some cmd -> deliver (os_output os) cmd = Done (cmd', fx') ->
  wait_process os (self, fx)
  = (inl (os_Wait os), (set_WrappedCmd (Some cmd') self, fx ++ fx')).
Proof.
  intros Hc Hd. unfold wait_process, ebind, get_cmd. cbn [fst snd].
  rewrite Hc, Hd. reflexivity.
Qed.

Lemma finalize_stdout_eq self fx cmd s text fx' :
  WrappedCmd self = Some cmd -> finalize_sink (cmd_Stdout cmd) = Done (s, text, fx') ->
  finalize_stdout (self, fx)
  = (inl tt, (set_WrappedCmd (Some (set_cmd_Stdout s cmd)) (set_text set_Stdout text self),
              fx ++ fx')).
Proof.
  intros Hc Hf. unfold finalize_stdout, ebind, get_cmd. cbn [fst snd].
  rewrite Hc, Hf. destruct text; reflexivity.
Qed.

Lemma finalize_stderr_eq self fx cmd s text fx' :
  WrappedCmd self = Some cmd -> finalize_sink (cmd_Stderr cmd) = Done (s, text, fx') ->
  finalize_stderr (self, fx)
  = (inl tt, (set_WrappedCmd (Some (set_cmd_Stderr s cmd)) (set_text set_Stderr text self),
              fx ++ fx')).
Proof.
  intros Hc Hf. unfold finalize_stderr, ebind, get_cmd. cbn [fst snd].
  rewrite Hc, Hf. destruct text; reflexivity.
Qed.

End StageEquations.

Lemma classify_verdict {P : Platform} w self fx :
  exists self',
    conclude (classify w (self, fx)) = (self', wait_verdict w, fx).
Proof.
  unfold classify, wait_verdict, modify, leave.
  destruct w as [[[st|]|msg]|]; cbn [conclude fst snd]; eexists; reflexivity.
Qed.

Lemma with_buffer_twice cw b b' : with_buffer (with_buffer cw b) b' = with_buffer cw b'.
Proof. reflexivity. Qed.

Lemma calls_of_Called_same stream calls :
  calls_of stream (map (Called stream) calls) = calls.
Proof.
  unfold calls_of. induction calls as [|c cs IH]; cbn [map flat_map]; [reflexivity|].
  rewrite Z.eqb_refl. cbn [app]. now rewrite IH.
Qed.

Lemma calls_of_Called_other stream stream' calls :
  stream' <> stream -> calls_of stream (map (Called stream') calls) = [].
Proof.
  intros Hne. unfold calls_of. induction calls as [|c cs IH]; cbn [map flat_map]; [reflexivity|].
  destruct (Z.eqb_spec stream' stream); [contradiction|]. exact IH.
Qed.

Lemma stream_of_cons_same stream p rest :
  stream_of stream ((stream, p) :: rest) = p ++ stream_of stream rest.
Proof. unfold stream_of. cbn [filter fst]. rewrite Z.eqb_refl. reflexivity. Qed.

Lemma stream_of_cons_other stream stream' p rest :
  stream' <> stream -> stream_of stream ((stream', p) :: rest) = stream_of stream rest.
Proof.
  intros Hne. unfold stream_of. cbn [filter fst].
  destruct (Z.eqb_spec stream' stream); [contradiction | reflexivity].
Qed.

(** The copying of the output to two writers with callbacks: each writer
    sees the bytes of its stream, in order. *)
Lemma deliver_two_writers output : forall pa ar en pr cw1 cw2 cb1 cb2 u1 u2,
  Type_ cw1 = STDOUT -> Type_ cw2 = STDERR ->
  callback cw1 = Some cb1 -> callback cw2 = Some cb2 ->
  tracks (buffer cw1) u1 -> no_newline u1 ->
  tracks (buffer cw2) u2 -> no_newline u2 ->
  exists b1 b2 fx,
    deliver output (mkCmd pa ar en (SinkWriter cw1) (SinkWriter cw2) pr)
      = Done (mkCmd pa ar en (SinkWriter (with_buffer cw1 b1))
                    (SinkWriter (with_buffer cw2 b2)) pr, fx)
    /\ tracks b1 (pending (u1 ++ stream_of STDOUT output))
    /\ tracks b2 (pending (u2 ++ stream_of STDERR output))
    /\ (keepBuffer cw1 = true ->
        byteBuffer b1 = byteBuffer (buffer cw1) ++ stream_of STDOUT output)
    /\ (keepBuffer cw2 = true ->
        byteBuffer b2 = byteBuffer (buffer cw2) ++ stream_of STDERR output)
    /\ calls_of STDOUT fx
       = map (line_call cb1 (callbackPayload cw1))
             (complete_lines (u1 ++ stream_of STDOUT output))
    /\ calls_of STDERR fx
       = map (line_call cb2 (callbackPayload cw2))
             (complete_lines (u2 ++ stream_of STDERR output)).
Proof.
  induction output as [|[stream p] rest IH];
    intros pa ar en pr cw1 cw2 cb1 cb2 u1 u2 Ht1 Ht2 Hc1 Hc2 Htr1 Hn1 Htr2 Hn2.
  - cbn [deliver]. exists (buffer cw1), (buffer cw2), [].
    rewrite !with_buffer_same. unfold stream_of. cbn [filter map List.concat].
    rewrite !app_nil_r. unfold complete_lines, pending.
    rewrite (split_lines_no_newline u1 Hn1), (split_lines_no_newline u2 Hn2).
    cbn [fst snd map]. split; [reflexivity|]. split; [exact Htr1|]. split; [exact Htr2|].
    split; [reflexivity|]. split; [reflexivity|]. split; reflexivity.
  - cbn [deliver]. destruct (Z.eqb_spec stream STDOUT) as [E1|N1];
      [|destruct (Z.eqb_spec stream STDERR) as [E2|N2]].
    + subst stream. cbn [cmd_Stdout write_sink].
      destruct (Write_with_callback cw1 cb1 p u1 Hc1 Htr1) as (b1 & Hw & Htr1' & Hk1 & _).
      rewrite Hw. cbn [bind]. unfold set_cmd_Stdout.
      cbn [cmd_Path cmd_Args cmd_Env cmd_Stderr cmd_Process].
      destruct (IH pa ar en pr (with_buffer cw1 b1) cw2 cb1 cb2 (pending (u1 ++ p)) u2
                   Ht1 Ht2 Hc1 Hc2 Htr1' (pending_no_newline _) Htr2 Hn2)
        as (b1' & b2' & fx & Hd & T1 & T2 & K1 & K2 & C1 & C2).
      rewrite Hd. cbn [bind]. rewrite with_buffer_twice.
      exists b1', b2'. eexists. split; [reflexivity|].
      rewrite stream_of_cons_same.
      rewrite (stream_of_cons_other STDERR STDOUT) by discriminate.
      rewrite !calls_of_app, Ht1, calls_of_Called_same.
      rewrite (calls_of_Called_other STDERR STDOUT) by discriminate.
      cbn [app]. rewrite C1, C2. cbn [callbackPayload buffer keepBuffer with_buffer] in *.
      set (s := stream_of STDOUT rest) in *.
      assert (Ep : pending (u1 ++ p ++ s) = pending (pending (u1 ++ p) ++ s))
        by (rewrite app_assoc; apply pending_app).
      assert (Ec : complete_lines (u1 ++ p ++ s)
                   = complete_lines (u1 ++ p) ++ complete_lines (pending (u1 ++ p) ++ s))
        by (rewrite app_assoc; apply complete_lines_app).
      rewrite Ep, Ec, map_app.
      split; [exact T1|]. split; [exact T2|].
      split; [intros Hk; rewrite (K1 Hk), (Hk1 Hk), <- app_assoc; reflexivity|].
      split; [exact K2|]. split; reflexivity.
    + subst stream. cbn [cmd_Stderr write_sink].
      destruct (Write_with_callback cw2 cb2 p u2 Hc2 Htr2) as (b2 & Hw & Htr2' & Hk2 & _).
      rewrite Hw. cbn [bind]. unfold set_cmd_Stderr.
      cbn [cmd_Path cmd_Args cmd_Env cmd_Stdout cmd_Process].
      destruct (IH pa ar en pr cw1 (with_buffer cw2 b2) cb1 cb2 u1 (pending (u2 ++ p))
                   Ht1 Ht2 Hc1 Hc2 Htr1 Hn1 Htr2' (pending_no_newline _))
        as (b1' & b2' & fx & Hd & T1 & T2 & K1 & K2 & C1 & C2).
      rewrite Hd. cbn [bind]. rewrite with_buffer_twice.
      exists b1', b2'. eexists. split; [reflexivity|].
      rewrite stream_of_cons_same.
      rewrite (stream_of_cons_other STDOUT STDERR) by discriminate.
      rewrite !calls_of_app, Ht2, calls_of_Called_same.
      rewrite (calls_of_Called_other STDOUT STDERR) by discriminate.
      cbn [app]. rewrite C1, C2. cbn [callbackPayload buffer keepBuffer with_buffer] in *.
      set (s := stream_of STDERR rest) in *.
      assert (Ep : pending (u2 ++ p ++ s) = pending (pending (u2 ++ p) ++ s))
        by (rewrite app_assoc; apply pending_app).
      assert (Ec : complete_lines (u2 ++ p ++ s)
                   = complete_lines (u2 ++ p) ++ complete_lines (pending (u2 ++ p) ++ s))
        by (rewrite app_assoc; apply complete_lines_app).
      rewrite Ep, Ec, map_app.
      split; [exact T1|]. split; [exact T2|]. split; [exact K1|].
      split; [intros Hk; rewrite (K2 Hk), (Hk2 Hk), <- app_assoc; reflexivity|].
      split; reflexivity.
    + cbn [bind].
      destruct (IH pa ar en pr cw1 cw2 cb1 cb2 u1 u2 Ht1 Ht2 Hc1 Hc2 Htr1 Hn1 Htr2 Hn2)
        as (b1' & b2' & fx & Hd & T1 & T2 & K1 & K2 & C1 & C2).
      rewrite Hd. cbn [bind app].
      exists b1', b2', fx. split; [reflexivity|].
      rewrite !stream_of_cons_other by assumption.
      split; [exact T1|]. split; [exact T2|]. split; [exact K1|]. split; [exact K2|].
      split; assumption.
Qed.

Lemma finalize_sink_writer cw cb u :
  callback cw = Some cb -> tracks (buffer cw) u ->
  exists cw',
    finalize_sink (SinkWriter cw)
    = Done (SinkWriter cw',
            (if keepBuffer cw
             then Some (string_of_list_byte (byteBuffer (buffer cw)))
             else None),
            map (Called (Type_ cw))
                (if is_empty u then [] else [line_call cb (callbackPayload cw) u])).
Proof.
  intros Hcb Htr. cbn [finalize_sink].
  rewrite (Finalize_with_callback cw cb u Hcb Htr).
  destruct (is_empty u); cbn [bind]; rewrite ToString_unfold;
    cbn [keepBuffer with_buffer buffer]; destruct (keepBuffer cw); cbn [bind];
    eexists; reflexivity.
Qed.

Lemma ebind_modify {B} f (k : unit -> exec B) self fx :
  ebind (modify f) k (self, fx) = k tt (f self, fx).
Proof. reflexivity. Qed.

Lemma ebind_ret {A B} (a : A) (k : A -> exec B) st : ebind (ret a) k st = k a st.
Proof. reflexivity. Qed.

Lemma ebind_get_cmd {B} (k : Cmd -> exec B) self fx cmd :
  WrappedCmd self = Some cmd -> ebind get_cmd k (self, fx) = k cmd (self, fx).
Proof. intros Hc. unfold ebind, get_cmd. cbn [fst]. now rewrite Hc. Qed.

Lemma update_cmd_eq (f : Cmd -> Cmd) self fx cmd :
  WrappedCmd self = Some cmd ->
  ebind get_cmd (fun c => put_cmd (f c)) (self, fx)
  = (inl tt, (set_WrappedCmd (Some (f cmd)) self, fx)).
Proof. intros Hc. unfold ebind, get_cmd. cbn [fst]. now rewrite Hc. Qed.

Lemma call_Begin_eq os self fx s e fx' :
  Begin os self = (s, e, fx') -> call_Begin os (self, fx) = (inl e, (s, fx ++ fx')).
Proof. intros Hb. unfold call_Begin. cbn [fst snd]. now rewrite Hb. Qed.

Lemma auto_initialize_skip {P : Platform} os self fx cmd :
  WrappedCmd self = Some cmd -> auto_initialize os (self, fx) = (inl tt, (self, fx)).
Proof.
  intros Hc. unfold auto_initialize, ebind, get_self. cbn [fst snd]. now rewrite Hc.
Qed.

(** ** The tests of the repository, replayed on the model *)

(** [TestFalse]: [false] exits with status 1. *)
Example TestFalse :
  let '(cmd, r, _) := @Run unix (quiet_process (@wait_of_status unix 256)) (New "false" []) in
  r = Returned None /\ ExitCode cmd = 1.
Proof. vm_compute. split; reflexivity. Qed.

(** [TestExitCode]: [sh -c "exit N"] for [N] from 0 to 9. *)
Example TestExitCode :
  forall N, 0 <= N < 10 ->
    let '(cmd, r, _) :=
      @Run unix (quiet_process (@wait_of_status unix (N * 256))) (New "sh" ["-c"; "exit"]%string) in
    r = Returned None /\ ExitCode cmd = N.
Proof.
  intros N HN.
  assert (HN' : N = 0 \/ N = 1 \/ N = 2 \/ N = 3 \/ N = 4 \/ N = 5 \/ N = 6 \/ N = 7
                \/ N = 8 \/ N = 9) by lia.
  repeat (destruct HN' as [->|HN']; [vm_compute; split; reflexivity|]).
  subst N. vm_compute. split; reflexivity.
Qed.

(** [TestCallbacks]: both streams through callbacks, retention on. *)
Example TestCallbacks :
  let '(cmd, r, fx) :=
    @RunWithCallbacks unix test_output (Some (Callback 0)) (Some (Callback 0)) 1 2 true true
      (New "sh" ["-c"; "echo start; ..."]%string) in
  r = Returned None
  /\ Stdout cmd
     = string_of_list_byte (terminated ["start"; "line on stdout"; "finished"]%string)
  /\ Stderr cmd = string_of_list_byte (terminated ["XXX line on stderr"%string])
  /\ ExitCode cmd = 0
  /\ fx = [Called STDOUT (Invoke (Callback 0) "start" 1);
           Called STDOUT (Invoke (Callback 0) "line on stdout" 1);
           Called STDERR (Invoke (Callback 0) "XXX line on stderr" 2);
           Called STDOUT (Invoke (Callback 0) "finished" 1)].
Proof. vm_compute. repeat split. Qed.

(** * The claims *)

(** C1: when the chunks written to a fresh writer with a callback add up to
    [L1 \n L2 \n ... Ln \n], the writes call the callback exactly on
    [L1], ..., [Ln], in that order and with the stored payload, however the
    bytes are cut into chunks; [Finalize] then adds no call. *)
Theorem lines_emitted_whatever_the_chunking :
  forall t cb payload keep (lines : list string) (chunks : list (list byte)),
    Forall (fun l => no_newline (list_byte_of_string l)) lines ->
    List.concat chunks = terminated lines ->
    exists cw',
      WriteAll (NewCompositeWriter t (Some cb) payload keep) chunks
        = Done (cw', map (fun l => Invoke cb l payload) lines)
      /\ CW.Finalize cw' = Done (cw', []).
Proof.
  intros t cb payload keep lines chunks Hl Hs.
  destruct (session_with_callback t cb payload keep lines EmptyString chunks Hl)
    as (cw1 & cw2 & Hw & Hf & Heq).
  - intros [].
  - cbn [list_byte_of_string]. now rewrite app_nil_r.
  - rewrite (Heq eq_refl) in Hf. exists cw1. split; assumption.
Qed.

(** One byte per write. *)
Lemma lines_emitted_one_byte_per_write :
  exists cw',
    WriteAll (NewCompositeWriter STDOUT (Some (Callback 0)) 5 false)
             (map (fun x => [x]) (terminated ["ab"; "cd"; "ef"]%string))
      = Done (cw', map (fun l => Invoke (Callback 0) l 5) ["ab"; "cd"; "ef"]%string)
    /\ CW.Finalize cw' = Done (cw', []).
Proof.
  apply (lines_emitted_whatever_the_chunking STDOUT (Callback 0) 5 false
           ["ab"; "cd"; "ef"]%string).
  - no_newline_tac.
  - reflexivity.
Defined.

(** C2: with retention on, the full history read after any writes and
    [Finalize] is the concatenation of everything written, callback or
    not. *)
Theorem full_history_is_concatenation :
  forall t cb payload (chunks : list (list byte)),
    ('(cw1, _) <- WriteAll (NewCompositeWriter t cb payload true) chunks ;;
     '(cw2, _) <- CW.Finalize cw1 ;;
     CW.ToString cw2)
    = Done (string_of_list_byte (List.concat chunks)).
Proof.
  intros t [cb|] payload chunks.
  - destruct (WriteAll_with_callback chunks (NewCompositeWriter t (Some cb) payload true) cb []
                eq_refl tracks_fresh (fun H => H))
      as (b1 & Hw & Htr & Hk & _).
    rewrite Hw. cbn [bind]. specialize (Hk eq_refl). cbn in Hk.
    rewrite (Finalize_with_callback
               (with_buffer (NewCompositeWriter t (Some cb) payload true) b1) cb _ eq_refl Htr).
    destruct (is_empty _); cbn [bind keepBuffer with_buffer NewCompositeWriter];
      unfold CW.ToString, Buf.ToString; cbn; rewrite Hk; reflexivity.
  - rewrite WriteAll_without_callback by reflexivity. reflexivity.
Qed.

(** C3: when the stream is [L1 \n ... Ln \n] followed by a rest without
    newline, all the writes together make exactly the [n] calls for the
    terminated lines, and [Finalize] makes one call carrying the rest when
    the rest is not empty and no call when it is empty. *)
Theorem trailing_line_emitted_by_Finalize :
  forall t cb payload keep (lines : list string) (rest : string)
         (chunks : list (list byte)),
    Forall (fun l => no_newline (list_byte_of_string l)) lines ->
    no_newline (list_byte_of_string rest) ->
    List.concat chunks = terminated lines ++ list_byte_of_string rest ->
    exists cw1 cw2,
      WriteAll (NewCompositeWriter t (Some cb) payload keep) chunks
        = Done (cw1, map (fun l => Invoke cb l payload) lines)
      /\ CW.Finalize cw1
        = Done (cw2, match rest with
                     | EmptyString => []
                     | _ => [Invoke cb rest payload]
                     end).
Proof.
  intros t cb payload keep lines rest chunks Hl Hr Hs.
  destruct (session_with_callback t cb payload keep lines rest chunks Hl Hr Hs)
    as (cw1 & cw2 & Hw & Hf & _).
  exists cw1, cw2. split; assumption.
Qed.

(** The rest [abc] arrives in two writes, after the line [xy]. *)
Lemma trailing_abc_emitted_by_Finalize :
  exists cw1 cw2,
    WriteAll (NewCompositeWriter STDERR (Some (Callback 1)) 9 true)
             [list_byte_of_string "x";
              list_byte_of_string "y" ++ newline :: list_byte_of_string "a";
              list_byte_of_string "bc"]
      = Done (cw1, map (fun l => Invoke (Callback 1) l 9) ["xy"%string])
    /\ CW.Finalize cw1 = Done (cw2, [Invoke (Callback 1) "abc" 9]).
Proof.
  apply (trailing_line_emitted_by_Finalize STDERR (Callback 1) 9 true
           ["xy"%string] "abc").
  - no_newline_tac.
  - no_newline_tac.
  - reflexivity.
Defined.

(** C4, as stated, fails for a writer without callback: it never extracts a
    line, so with retention off it still accumulates the whole stream.
    After writing [a \n] and [b \n] it holds four bytes; no line is longer
    than one byte. *)
Lemma retention_off_unbounded_without_callback :
  ~ buffer_within_longest_line
      (NewCompositeWriter STDOUT None 0 false)
      [list_byte_of_string "a" ++ [newline]; list_byte_of_string "b" ++ [newline]].
Proof.
  intros (cw' & calls & Hw & Hle).
  vm_compute in Hw. inversion Hw; subst; clear Hw.
  vm_compute in Hle. apply Hle. reflexivity.
Qed.

(** C4, amended: for a writer with a callback and retention off, after
    every write the buffer holds exactly the bytes that follow the last
    newline of the stream, at offset 0; so it is no longer than the longest
    line, and no byte of an emitted line is kept. *)
Theorem retention_off_buffer_is_pending_line :
  forall t cb payload (chunks : list (list byte)),
    buffer_within_longest_line (NewCompositeWriter t (Some cb) payload false) chunks
    /\ exists cw' calls,
         WriteAll (NewCompositeWriter t (Some cb) payload false) chunks = Done (cw', calls)
         /\ buffer cw' = mkBuffer (pending (List.concat chunks)) 0.
Proof.
  intros t cb payload chunks.
  destruct (WriteAll_with_callback chunks (NewCompositeWriter t (Some cb) payload false) cb []
              eq_refl tracks_fresh (fun H => H))
    as (b1 & Hw & [Hwf Hun] & _ & Ho).
  specialize (Ho eq_refl eq_refl). cbn [app] in *.
  assert (Hb : b1 = mkBuffer (pending (List.concat chunks)) 0).
  { destruct b1 as [bb off]. unfold unconsumed in Hun. cbn in Ho, Hun. subst off.
    cbn in Hun. now subst bb. }
  split.
  - eexists. eexists. split; [exact Hw|]. rewrite Hb. cbn.
    apply len_pending_le_longest.
  - eexists. eexists. split; [exact Hw|]. rewrite Hb. reflexivity.
Qed.

(** C5: whenever the process can be set up, started and read, and ends
    with a wait status whose exit status is [N], [Run] returns nil and
    leaves [N] in [ExitCode], zero or not. *)
Theorem Run_returns_exit_status :
  forall (P : Platform) (os : os_behaviour) (self : CommandExecution)
         (w : WaitStatus) (N : Z),
    process_runs os ->
    request_ok self ->
    os_Wait os = wait_of_status w ->
    ExitStatus w = N ->
    exists self' fx,
      Run os self = (self', Returned None, fx) /\ ExitCode self' = N.
Proof.
  intros P os self w N Hos Hself Hwait HN.
  destruct (Run_exit_status os self w Hos Hself Hwait) as (self' & fx & HR & HE & _).
  exists self', fx. split; [exact HR | congruence].
Qed.

(** [sh -c "exit 3"] on Unix. *)
Lemma Run_returns_exit_status_3 :
  exists self' fx,
    @Run unix (quiet_process (@wait_of_status unix 768))
         (New "sh" ["-c"; "exit 3"]%string)
      = (self', Returned None, fx)
    /\ ExitCode self' = 3.
Proof.
  apply (Run_returns_exit_status unix (quiet_process (@wait_of_status unix 768))
           (New "sh" ["-c"; "exit 3"]%string) 768 3).
  - unfold process_runs, quiet_process; cbn.
    repeat split; eexists; (split; [reflexivity|]); eexists; reflexivity.
  - unfold request_ok; cbn. repeat split.
  - reflexivity.
  - reflexivity.
Defined.

(** C6: [New] sets the exit code to -1; [Begin] does not touch it; [Run]
    (and [RunWithCallbacks]) leaves it untouched whenever it returns an
    error or panics, and otherwise sets it to 0 after a nil [Wait] and to
    the reported exit status after an exit error. *)
Theorem ExitCode_sentinel_until_classified :
  forall (P : Platform),
    (forall command args, ExitCode (New command args) = -1)
    /\ (forall os self, ExitCode (fst (fst (Begin os self))) = ExitCode self)
    /\ (forall os self, exit_code_rule os self (Run os self))
    /\ (forall os cb1 cb2 p1 p2 k1 k2 self,
          exit_code_rule os self (RunWithCallbacks os cb1 cb2 p1 p2 k1 k2 self)).
Proof.
  intros P. split; [reflexivity|]. split; [apply Begin_ExitCode|]. split.
  - intros os self. apply classified_exit_code_rule, classified_Run_body.
  - intros os cb1 cb2 p1 p2 k1 k2 self.
    apply classified_exit_code_rule, classified_RunWithCallbacks_body.
Qed.

(** C7: the full-history readout panics exactly when retention is off, and
    otherwise returns the text of the buffer. *)
Theorem ToString_panics_iff_retention_off :
  forall cw,
    CW.ToString cw =
      if keepBuffer cw
      then Done (string_of_list_byte (byteBuffer (buffer cw)))
      else Panicked "KeepBuffer = false for this composite writer".
Proof.
  intros cw. unfold CW.ToString, Buf.ToString. destruct (keepBuffer cw); reflexivity.
Qed.

(** C8: the arguments of a remote invocation are the extra options, the
    six fixed tokens, the host and the caller's arguments, in this order;
    the command is [ssh]. *)
Theorem ssh_arguments_in_order :
  forall (extra : list string) (h : string) (a : list string),
    prepareSshArgs extra h a
      = extra
        ++ ["-o"; "UserKnownHostsFile=/dev/null";
            "-o"; "StrictHostKeyChecking=no";
            "-o"; "LogLevel=ERROR"]%string
        ++ [h] ++ a
    /\ Args (NewSsh extra h a) = prepareSshArgs extra h a
    /\ Command (NewSsh extra h a) = "ssh"%string.
Proof.
  intros extra h a. unfold NewSsh, prepareSshArgs. cbn [Args Command New].
  rewrite <- app_assoc. repeat split.
Qed.

(** C9: on a request without command, a [Begin] that returns an error
    leaves [WrappedCmd] nil; the error is that of a pipe attachment; and
    any later [Run] starts with [Begin] again.  A [Begin] that returns nil
    has set [WrappedCmd], and every pipe it was asked for is attached. *)
Theorem Begin_failure_leaves_request_unprepared :
  forall (P : Platform) os self self' e fx,
    WrappedCmd self = None ->
    Begin os self = (self', e, fx) ->
    match e with
    | Some err =>
        WrappedCmd self' = None
        /\ (os_StdoutPipe os = inr err \/ os_StderrPipe os = inr err)
        /\ forall os2,
             Run os2 self' =
               let '(s, e2, fx2) := Begin os2 self' in
               match e2 with
               | Some err2 => (s, Returned (Some err2), fx2)
               | None => conclude (after_preparation os2 (s, fx2))
               end
    | None =>
        (exists cmd, WrappedCmd self' = Some cmd)
        /\ (AutoReadStdout self = true -> exists r, os_StdoutPipe os = inl r)
        /\ (AutoReadStderr self = true -> exists r, os_StderrPipe os = inl r)
    end.
Proof.
  intros P os self self' [err|] fx Hw Hb.
  - destruct (Begin_error os self self' err fx Hb) as [Hw' Hsrc].
    rewrite Hw in Hw'. split; [exact Hw'|]. split; [exact Hsrc|].
    intros os2. now apply Run_unprepared.
  - destruct (Begin_success os self self' fx Hb) as (cmd & Hc & _ & Ho & _ & He & _).
    split; [now exists cmd|]. split; intros Ha.
    + destruct (Ho Ha) as (r & Hr & _). now exists r.
    + destruct (He Ha) as (r & Hr & _). now exists r.
Qed.

(** The stderr pipe cannot be attached: the stdout reader is already set,
    the command is not. *)
Lemma Begin_failure_on_stderr_pipe :
  WrappedCmd (set_StdoutReader (Some (mkReader (inl []))) (New "ls" [])) = None
  /\ (os_StdoutPipe stderr_pipe_fails = inr (OtherError "pipe: too many open files")
      \/ os_StderrPipe stderr_pipe_fails = inr (OtherError "pipe: too many open files"))
  /\ forall os2,
       @Run unix os2 (set_StdoutReader (Some (mkReader (inl []))) (New "ls" [])) =
         let '(s, e2, fx2) :=
           Begin os2 (set_StdoutReader (Some (mkReader (inl []))) (New "ls" [])) in
         match e2 with
         | Some err2 => (s, Returned (Some err2), fx2)
         | None => conclude (@after_preparation unix os2 (s, fx2))
         end.
Proof.
  exact (Begin_failure_leaves_request_unprepared unix stderr_pipe_fails (New "ls" [])
           (set_StdoutReader (Some (mkReader (inl []))) (New "ls" []))
           (Some (OtherError "pipe: too many open files")) []
           eq_refl eq_refl).
Defined.

(** C10: on a writer whose offset lies within its buffer, in either
    retention mode and with or without callback, [Finalize] returns, and a
    second [Finalize] right after it makes no call and changes nothing. *)
Theorem Finalize_idempotent :
  forall cw,
    wf_buffer (buffer cw) ->
    exists cw' calls,
      CW.Finalize cw = Done (cw', calls)
      /\ CW.Finalize cw' = Done (cw', []).
Proof.
  intros cw Hwf. destruct (callback cw) as [cb|] eqn:Hcb.
  - pose proof (Finalize_with_callback cw cb (unconsumed (buffer cw)) Hcb (conj Hwf eq_refl))
      as Hf.
    destruct (unconsumed (buffer cw)) as [|x u'] eqn:Hu; cbn [is_empty] in Hf.
    + exists cw, []. split; assumption.
    + eexists. eexists. split; [exact Hf|].
      match goal with |- CW.Finalize ?w = _ =>
        rewrite (Finalize_with_callback w cb [] Hcb); [reflexivity|]
      end.
      cbn [buffer with_buffer]. destruct (keepBuffer cw); [|exact tracks_fresh].
      destruct (unconsumed_advance (buffer cw) (len (x :: u')) Hwf) as [Hwf' Hun'].
      * rewrite <- (len_unconsumed _ Hwf), Hu. pose proof (len_nonneg (x :: u')). lia.
      * split; [exact Hwf'|]. rewrite Hun', Hu. unfold len. rewrite Nat2Z.id.
        apply skipn_all.
  - exists cw, []. unfold CW.Finalize. rewrite Hcb. split; reflexivity.
Qed.

Lemma Finalize_idempotent_after_partial_line :
  exists cw' calls,
    CW.Finalize (mkWriter STDOUT (mkBuffer (list_byte_of_string "abc") 1) true
                          (Some (Callback 0)) 3)
      = Done (cw', calls)
    /\ CW.Finalize cw' = Done (cw', []).
Proof.
  apply Finalize_idempotent. unfold wf_buffer. cbn. lia.
Defined.

(** * Further properties *)

(** X1: [Write] on a writer whose offset lies within its buffer never
    panics, reports the whole chunk as written with a nil error, and leaves
    a writer with the same settings whose offset lies within its buffer. *)
Theorem Write_accepts_whole_chunk :
  forall cw p,
    wf_buffer (buffer cw) ->
    exists b' calls,
      CW.Write cw p = Done (with_buffer cw b', calls, (len p, None))
      /\ wf_buffer b'.
Proof.
  intros cw p Hwf. destruct (callback cw) as [cb|] eqn:Hcb.
  - destruct (Write_with_callback cw cb p _ Hcb (conj Hwf eq_refl))
      as (b' & Hw & [Hwf' _] & _).
    exists b'. eexists. split; [exact Hw | exact Hwf'].
  - unfold CW.Write. rewrite Hcb. eexists. eexists. split; [reflexivity|].
    exact (proj1 (tracks_Append _ _ p (conj Hwf eq_refl))).
Qed.

Lemma Write_accepts_chunk_after_partial_line :
  exists b' calls,
    CW.Write (mkWriter STDOUT (mkBuffer (list_byte_of_string "ab") 0) false
                       (Some (Callback 0)) 1)
             (list_byte_of_string "c" ++ [newline])
      = Done (with_buffer
                (mkWriter STDOUT (mkBuffer (list_byte_of_string "ab") 0) false
                          (Some (Callback 0)) 1) b',
              calls, (len (list_byte_of_string "c" ++ [newline]), None))
    /\ wf_buffer b'.
Proof.
  apply Write_accepts_whole_chunk. unfold wf_buffer. cbn. lia.
Defined.

(** X2: a writer without callback only accumulates: whatever is written,
    in either retention mode, no call is made, the buffer holds the whole
    stream at offset 0, and [Finalize] changes nothing. *)
Theorem writer_without_callback_accumulates :
  forall t payload keep (chunks : list (list byte)),
    WriteAll (NewCompositeWriter t None payload keep) chunks
      = Done (mkWriter t (mkBuffer (List.concat chunks) 0) keep None payload, [])
    /\ CW.Finalize (mkWriter t (mkBuffer (List.concat chunks) 0) keep None payload)
      = Done (mkWriter t (mkBuffer (List.concat chunks) 0) keep None payload, []).
Proof.
  intros t payload keep chunks. split; [|reflexivity].
  rewrite WriteAll_without_callback by reflexivity. reflexivity.
Qed.

(** X3: on a fresh writer any sequence of writes gives the same calls and
    the same writer as one write of the concatenated bytes. *)
Theorem any_chunking_is_one_write :
  forall t cb payload keep (chunks : list (list byte)),
    WriteAll (NewCompositeWriter t cb payload keep) chunks
    = WriteAll (NewCompositeWriter t cb payload keep) [List.concat chunks].
Proof.
  intros t [cb|] payload keep chunks.
  - rewrite !WriteAll_fresh_state. cbn [List.concat]. now rewrite app_nil_r.
  - rewrite !WriteAll_without_callback by reflexivity. cbn [List.concat].
    now rewrite app_nil_r.
Qed.

(** X4: no byte is lost or invented: the lines passed to the callback by
    the writes, each followed by a newline, and then the line passed by
    [Finalize], add up to the stream that was written. *)
Theorem calls_reassemble_the_stream :
  forall t cb payload keep (chunks : list (list byte)),
    exists cw1 calls1 cw2 calls2,
      WriteAll (NewCompositeWriter t (Some cb) payload keep) chunks = Done (cw1, calls1)
      /\ CW.Finalize cw1 = Done (cw2, calls2)
      /\ flat_map (fun c => list_byte_of_string (inv_line c) ++ [newline]) calls1
         ++ flat_map (fun c => list_byte_of_string (inv_line c)) calls2
         = List.concat chunks.
Proof.
  intros t cb payload keep chunks.
  do 4 eexists. split; [apply WriteAll_fresh_state|].
  split; [apply Finalize_stream_buffer|].
  rewrite rejoin_line_calls, last_call_bytes. apply split_lines_rejoin.
Qed.

(** X5: every call made by the writes and by [Finalize] goes to the
    writer's callback with the writer's payload, and its line contains no
    newline. *)
Theorem calls_carry_callback_payload_and_clean_line :
  forall t cb payload keep (chunks : list (list byte)),
    exists cw1 calls1 cw2 calls2,
      WriteAll (NewCompositeWriter t (Some cb) payload keep) chunks = Done (cw1, calls1)
      /\ CW.Finalize cw1 = Done (cw2, calls2)
      /\ Forall (fun c => inv_callback c = cb
                          /\ inv_payload c = payload
                          /\ no_newline (list_byte_of_string (inv_line c)))
                (calls1 ++ calls2).
Proof.
  intros t cb payload keep chunks.
  do 4 eexists. split; [apply WriteAll_fresh_state|].
  split; [apply Finalize_stream_buffer|].
  apply Forall_app. split.
  - apply Forall_map. eapply Forall_impl; [|apply complete_lines_no_newline].
    intros l Hl. unfold line_call. cbn [inv_callback inv_payload inv_line].
    now rewrite bytes_string_roundtrip.
  - unfold last_call. destruct (is_empty _); constructor; [|constructor].
    unfold line_call. cbn [inv_callback inv_payload inv_line].
    rewrite bytes_string_roundtrip.
    repeat split. apply pending_no_newline.
Qed.

(** X6: the writes call the callback once per newline byte of the stream;
    [Finalize] calls it once more when the stream is not empty and does not
    end with a newline, and not at all otherwise. *)
Theorem one_call_per_newline :
  forall t cb payload keep (chunks : list (list byte)),
    exists cw1 calls1 cw2 calls2,
      WriteAll (NewCompositeWriter t (Some cb) payload keep) chunks = Done (cw1, calls1)
      /\ CW.Finalize cw1 = Done (cw2, calls2)
      /\ List.length calls1 = List.length (filter is_newline (List.concat chunks))
      /\ List.length calls2 = (if ends_open (List.concat chunks) then 1 else 0)%nat.
Proof.
  intros t cb payload keep chunks.
  do 4 eexists. split; [apply WriteAll_fresh_state|].
  split; [apply Finalize_stream_buffer|]. split.
  - rewrite length_map. apply length_complete_lines.
  - unfold last_call. rewrite is_empty_pending.
    destruct (ends_open (List.concat chunks)); reflexivity.
Qed.

(** X7: with retention on and a callback, after any writes the buffer holds
    the whole stream and the offset is the length of the emitted lines with
    their terminators, so that the bytes behind it are the unterminated
    rest. *)
Theorem retention_on_offset_marks_emitted_prefix :
  forall t cb payload (chunks : list (list byte)),
    exists cw' calls,
      WriteAll (NewCompositeWriter t (Some cb) payload true) chunks = Done (cw', calls)
      /\ buffer cw'
         = mkBuffer (List.concat chunks)
                    (len (rejoin (complete_lines (List.concat chunks))))
      /\ Buf.Slice (buffer cw') = Done (pending (List.concat chunks)).
Proof.
  intros t cb payload chunks.
  do 2 eexists. split; [apply WriteAll_fresh_state|].
  cbn [buffer]. set (s := List.concat chunks).
  assert (Hoff : len s - len (pending s) = len (rejoin (complete_lines s))).
  { rewrite <- (split_lines_rejoin s) at 1. rewrite len_app. lia. }
  split; [unfold stream_buffer; now rewrite Hoff|].
  destruct (tracks_stream_buffer true s) as [Hwf Hu].
  rewrite (Slice_ok _ Hwf). now rewrite Hu.
Qed.

(** X8: with retention off and a callback, [Finalize] after any writes
    leaves the writer as [NewCompositeWriter] made it. *)
Theorem retention_off_Finalize_restores_fresh_writer :
  forall t cb payload (chunks : list (list byte)),
    ('(cw1, _) <- WriteAll (NewCompositeWriter t (Some cb) payload false) chunks ;;
     '(cw2, _) <- CW.Finalize cw1 ;;
     Done cw2)
    = Done (NewCompositeWriter t (Some cb) payload false).
Proof.
  intros t cb payload chunks.
  rewrite WriteAll_fresh_state. cbn [bind].
  rewrite Finalize_stream_buffer. reflexivity.
Qed.

(** X9: [Finalize] closes the line: the writes that follow a [Finalize]
    emit the lines of their own bytes only, whatever was flushed before;
    with retention on the buffer still holds both streams, with retention
    off it holds the unterminated rest of the second. *)
Theorem Finalize_separates_sessions :
  forall t cb payload keep (chunks1 chunks2 : list (list byte)),
    ('(cw1, _) <- WriteAll (NewCompositeWriter t (Some cb) payload keep) chunks1 ;;
     '(cw2, _) <- CW.Finalize cw1 ;;
     '(cw3, calls3) <- WriteAll cw2 chunks2 ;;
     Done (calls3, byteBuffer (buffer cw3)))
    = Done (map (line_call cb payload) (complete_lines (List.concat chunks2)),
            if keep then List.concat chunks1 ++ List.concat chunks2
            else pending (List.concat chunks2)).
Proof.
  intros t cb payload keep chunks1 chunks2.
  rewrite WriteAll_fresh_state. cbn [bind].
  rewrite Finalize_stream_buffer. cbn [bind].
  set (s1 := List.concat chunks1). set (s2 := List.concat chunks2).
  set (cw2 := mkWriter t (if keep then mkBuffer s1 (len s1) else mkBuffer [] 0)
                       keep (Some cb) payload).
  assert (Htr : tracks (buffer cw2) []).
  { unfold cw2. cbn [buffer]. destruct keep; [|apply tracks_fresh].
    unfold tracks, wf_buffer, unconsumed. cbn [byteBuffer LastNewlineOffset].
    pose proof (len_nonneg s1). split; [lia|].
    unfold len. rewrite Nat2Z.id. apply skipn_all. }
  destruct (WriteAll_with_callback chunks2 cw2 cb [] eq_refl Htr (fun H => H))
    as (b3 & Hw & [Hwf3 Hu3] & Hk & Ho).
  rewrite Hw. cbn [bind app buffer with_buffer callbackPayload]. fold s2.
  unfold cw2. cbn [callbackPayload]. do 2 f_equal.
  unfold cw2 in Hk, Ho. cbn [keepBuffer buffer] in Hk, Ho.
  destruct keep.
  - now rewrite (Hk eq_refl).
  - specialize (Ho eq_refl eq_refl). unfold unconsumed in Hu3. rewrite Ho in Hu3.
    exact Hu3.
Qed.

(** X10: an empty write after any writes on a fresh writer returns 0 and
    nil, makes no call and leaves the writer as it was. *)
Theorem empty_Write_changes_nothing :
  forall t cb payload keep (chunks : list (list byte)),
    ('(cw1, _) <- WriteAll (NewCompositeWriter t cb payload keep) chunks ;;
     CW.Write cw1 [])
    = ('(cw1, _) <- WriteAll (NewCompositeWriter t cb payload keep) chunks ;;
       Done (cw1, [], (0, None))).
Proof.
  intros t [cb|] payload keep chunks.
  - pose proof (WriteAll_app chunks (NewCompositeWriter t (Some cb) payload keep) [[]]) as Happ.
    rewrite (WriteAll_fresh_state t cb payload keep (chunks ++ [[]])) in Happ.
    rewrite WriteAll_fresh_state in Happ |- *. cbn [bind WriteAll] in Happ |- *.
    rewrite concat_app in Happ. cbn [List.concat app] in Happ.
    rewrite (app_nil_r (List.concat chunks)) in Happ.
    destruct (CW.Write _ []) as [[[cw' calls'] r]|msg] eqn:Hw; cbn [bind] in Happ;
      [|discriminate].
    inversion Happ as [[Hcw Hcalls]].
    rewrite (app_nil_r calls') in Hcalls.
    rewrite <- (app_nil_r (map _ _)) in Hcalls at 1.
    apply app_inv_head in Hcalls. subst calls'.
    assert (Hr : r = (0, None)).
    { destruct (Write_wf
                  (mkWriter t (stream_buffer keep (List.concat chunks)) keep (Some cb) payload)
                  [] (proj1 (tracks_stream_buffer keep _))) as (b & c & E & _).
      rewrite E in Hw. now inversion Hw. }
    now rewrite Hr.
  - rewrite WriteAll_without_callback by reflexivity. cbn [bind].
    unfold CW.Write, Buf.Append, with_buffer.
    cbn [callback Type_ keepBuffer callbackPayload buffer byteBuffer LastNewlineOffset].
    rewrite app_nil_r. reflexivity.
Qed.

(** X11: compaction keeps the unconsumed bytes: on a buffer whose offset
    lies within it, [Truncate] does not panic, drops exactly the consumed
    prefix and sets the offset to 0, so [Slice] and [SliceLength] are
    unchanged. *)
Theorem Truncate_keeps_unconsumed_slice :
  forall b,
    wf_buffer b ->
    exists b',
      Buf.Truncate b = Done b'
      /\ LastNewlineOffset b' = 0
      /\ firstn (Z.to_nat (LastNewlineOffset b)) (byteBuffer b) ++ byteBuffer b'
         = byteBuffer b
      /\ Buf.Slice b' = Buf.Slice b
      /\ Buf.SliceLength b' = Buf.SliceLength b.
Proof.
  intros b Hwf. exists (mkBuffer (unconsumed b) 0).
  split; [now apply Truncate_ok|]. split; [reflexivity|].
  split; [apply firstn_skipn|]. split.
  - rewrite (Slice_ok b Hwf). rewrite (Slice_ok _ (proj1 (tracks_whole _))). reflexivity.
  - rewrite <- (len_unconsumed b Hwf). unfold Buf.SliceLength.
    cbn [byteBuffer LastNewlineOffset]. lia.
Qed.

Lemma Truncate_keeps_abc :
  exists b',
    Buf.Truncate (mkBuffer (list_byte_of_string "xy" ++ newline :: list_byte_of_string "abc") 3)
      = Done b'
    /\ LastNewlineOffset b' = 0
    /\ firstn (Z.to_nat 3) (list_byte_of_string "xy" ++ newline :: list_byte_of_string "abc")
       ++ byteBuffer b'
       = list_byte_of_string "xy" ++ newline :: list_byte_of_string "abc"
    /\ Buf.Slice b'
       = Buf.Slice (mkBuffer (list_byte_of_string "xy" ++ newline
                                :: list_byte_of_string "abc") 3)
    /\ Buf.SliceLength b'
       = Buf.SliceLength (mkBuffer (list_byte_of_string "xy" ++ newline
                                      :: list_byte_of_string "abc") 3).
Proof.
  apply (Truncate_keeps_unconsumed_slice
           (mkBuffer (list_byte_of_string "xy" ++ newline :: list_byte_of_string "abc") 3)).
  unfold wf_buffer. cbn. lia.
Defined.

(** X12: taking the next [n] unconsumed bytes and then advancing by [n]
    splits the unconsumed slice in two: [SliceNext n] returns its first [n]
    bytes and [Slice] after [IncrementOffset n] returns the others. *)
Theorem SliceNext_and_IncrementOffset_split_slice :
  forall b n,
    wf_buffer b ->
    0 <= n <= Buf.SliceLength b ->
    exists pre post,
      Buf.SliceNext b n = Done pre
      /\ Buf.Slice (Buf.IncrementOffset b n) = Done post
      /\ Buf.Slice b = Done (pre ++ post)
      /\ len pre = n
      /\ Buf.SliceLength (Buf.IncrementOffset b n) = Buf.SliceLength b - n.
Proof.
  intros b n Hwf Hn.
  destruct (unconsumed_advance b n Hwf Hn) as [Hwf' Hun].
  exists (firstn (Z.to_nat n) (unconsumed b)), (skipn (Z.to_nat n) (unconsumed b)).
  split; [now apply SliceNext_ok|].
  split; [rewrite (Slice_ok _ Hwf'); now rewrite Hun|].
  split; [rewrite firstn_skipn; now apply Slice_ok|].
  split.
  - unfold len. rewrite length_firstn.
    pose proof (len_unconsumed b Hwf) as Hl. unfold len in Hl. lia.
  - unfold Buf.SliceLength, Buf.IncrementOffset. cbn [byteBuffer LastNewlineOffset]. lia.
Qed.

Lemma SliceNext_and_IncrementOffset_split_abc :
  exists pre post,
    Buf.SliceNext (mkBuffer (list_byte_of_string "xabc") 1) 2 = Done pre
    /\ Buf.Slice (Buf.IncrementOffset (mkBuffer (list_byte_of_string "xabc") 1) 2) = Done post
    /\ Buf.Slice (mkBuffer (list_byte_of_string "xabc") 1) = Done (pre ++ post)
    /\ len pre = 2
    /\ Buf.SliceLength (Buf.IncrementOffset (mkBuffer (list_byte_of_string "xabc") 1) 2)
       = Buf.SliceLength (mkBuffer (list_byte_of_string "xabc") 1) - 2.
Proof.
  apply (SliceNext_and_IncrementOffset_split_slice
           (mkBuffer (list_byte_of_string "xabc") 1) 2).
  - unfold wf_buffer. cbn. lia.
  - unfold Buf.SliceLength. cbn. lia.
Defined.

(** X13: [Append] adds the chunk at the end of the unconsumed slice and
    touches neither the offset nor the bytes before it. *)
Theorem Append_extends_unconsumed_slice :
  forall b p,
    wf_buffer b ->
    exists u,
      Buf.Slice b = Done u
      /\ Buf.Slice (Buf.Append b p) = Done (u ++ p)
      /\ Buf.SliceLength (Buf.Append b p) = Buf.SliceLength b + len p
      /\ LastNewlineOffset (Buf.Append b p) = LastNewlineOffset b
      /\ firstn (Z.to_nat (LastNewlineOffset b)) (byteBuffer (Buf.Append b p))
         = firstn (Z.to_nat (LastNewlineOffset b)) (byteBuffer b).
Proof.
  intros b p Hwf. exists (unconsumed b).
  destruct (tracks_Append b (unconsumed b) p (conj Hwf eq_refl)) as [Hwf' Hun].
  split; [now apply Slice_ok|].
  split; [rewrite (Slice_ok _ Hwf'); now rewrite Hun|].
  split; [unfold Buf.SliceLength, Buf.Append; cbn [byteBuffer LastNewlineOffset];
          rewrite len_app; lia|].
  split; [reflexivity|].
  unfold Buf.Append. cbn [byteBuffer]. rewrite firstn_app.
  replace (_ - _)%nat with 0%nat by (unfold wf_buffer, len in Hwf; lia).
  cbn [firstn]. now rewrite app_nil_r.
Qed.

Lemma Append_extends_abc :
  exists u,
    Buf.Slice (mkBuffer (list_byte_of_string "xab") 1) = Done u
    /\ Buf.Slice (Buf.Append (mkBuffer (list_byte_of_string "xab") 1)
                             (list_byte_of_string "c"))
       = Done (u ++ list_byte_of_string "c")
    /\ Buf.SliceLength (Buf.Append (mkBuffer (list_byte_of_string "xab") 1)
                                   (list_byte_of_string "c"))
       = Buf.SliceLength (mkBuffer (list_byte_of_string "xab") 1)
         + len (list_byte_of_string "c")
    /\ LastNewlineOffset (Buf.Append (mkBuffer (list_byte_of_string "xab") 1)
                                     (list_byte_of_string "c"))
       = LastNewlineOffset (mkBuffer (list_byte_of_string "xab") 1)
    /\ firstn (Z.to_nat (LastNewlineOffset (mkBuffer (list_byte_of_string "xab") 1)))
              (byteBuffer (Buf.Append (mkBuffer (list_byte_of_string "xab") 1)
                                      (list_byte_of_string "c")))
       = firstn (Z.to_nat (LastNewlineOffset (mkBuffer (list_byte_of_string "xab") 1)))
                (byteBuffer (mkBuffer (list_byte_of_string "xab") 1)).
Proof.
  apply (Append_extends_unconsumed_slice
           (mkBuffer (list_byte_of_string "xab") 1) (list_byte_of_string "c")).
  unfold wf_buffer. cbn. lia.
Defined.

(** X14: a request without command and with both auto-read flags set, run
    on a process whose pipes attach and can be read, that starts and ends
    with wait status [w]: [Run] returns nil, [Stdout] and [Stderr] are the
    texts read from the two pipes, [ExitCode] is the exit status of [w],
    and nothing but the optional log line is emitted. *)
Theorem Run_captures_pipe_output :
  forall (P : Platform) os self r1 r2 out err w,
    WrappedCmd self = None ->
    AutoReadStdout self = true -> AutoReadStderr self = true ->
    os_StdoutPipe os = inl r1 -> ReadAll r1 = inl out ->
    os_StderrPipe os = inl r2 -> ReadAll r2 = inl err ->
    os_Start os = None ->
    os_Wait os = wait_of_status w ->
    exists self',
      Run os self = (self', Returned None, begin_log self)
      /\ Stdout self' = string_of_list_byte out
      /\ Stderr self' = string_of_list_byte err
      /\ ExitCode self' = ExitStatus w.
Proof.
  intros P os self r1 r2 out err w Hw Ho He Hp1 Hr1 Hp2 Hr2 Hs Hwait.
  rewrite (Run_unprepared os self Hw).
  rewrite (Begin_both_pipes os self r1 r2 Ho He Hp1 Hp2).
  unfold after_preparation.
  erewrite ebind_inl by (eapply start_process_eq; [reflexivity | reflexivity | exact Hs]).
  erewrite ebind_inl by (eapply read_stdout_eq; [reflexivity | exact Hr1]).
  erewrite ebind_inl by (eapply read_stderr_eq; [reflexivity | exact Hr2]).
  erewrite ebind_inl
    by (eapply wait_process_eq; [reflexivity | apply deliver_no_writer; reflexivity]).
  erewrite ebind_inl
    by (eapply finalize_stdout_eq; [reflexivity | apply finalize_sink_no_writer; reflexivity]).
  erewrite ebind_inl
    by (eapply finalize_stderr_eq; [reflexivity | apply finalize_sink_no_writer; reflexivity]).
  rewrite Hwait, classify_status. cbn [conclude set_text]. rewrite !app_nil_r.
  eexists. split; [reflexivity|]. repeat split.
Qed.

Lemma Run_captures_out_and_err :
  exists self',
    @Run unix (mkOS (inl (mkReader (inl (list_byte_of_string "out"))))
                    (inl (mkReader (inl (list_byte_of_string "err"))))
                    [] None [] (@wait_of_status unix 512))
         (New "ls" ["-l"%string])
      = (self', Returned None, begin_log (New "ls" ["-l"%string]))
    /\ Stdout self' = string_of_list_byte (list_byte_of_string "out")
    /\ Stderr self' = string_of_list_byte (list_byte_of_string "err")
    /\ ExitCode self' = @ExitStatus unix 512.
Proof.
  apply (Run_captures_pipe_output unix
           (mkOS (inl (mkReader (inl (list_byte_of_string "out"))))
                 (inl (mkReader (inl (list_byte_of_string "err"))))
                 [] None [] (@wait_of_status unix 512))
           (New "ls" ["-l"%string])
           (mkReader (inl (list_byte_of_string "out")))
           (mkReader (inl (list_byte_of_string "err")))
           (list_byte_of_string "out") (list_byte_of_string "err") 512);
    reflexivity.
Defined.

(** X15: when the process can be set up, started and read, how [Run] ends
    is decided by what [Wait] returned: nil for a nil [Wait] and for an exit
    error with a wait status, the error itself for any other error, and a
    panic for an exit error without wait status. *)
Theorem Run_ends_by_Wait_result :
  forall (P : Platform) os self,
    process_runs os ->
    request_ok self ->
    exists self' fx, Run os self = (self', wait_verdict (os_Wait os), fx).
Proof.
  intros P os self Hos Hself. unfold Run, finish, Run_body.
  destruct (auto_initialize_ok os self [] Hos Hself) as (s1 & fx1 & E1 & H1).
  rewrite (ebind_inl _ _ _ _ _ E1).
  destruct (start_process_ok os s1 fx1 (proj2 (proj2 Hos)) H1) as (s2 & E2 & H2).
  rewrite (ebind_inl _ _ _ _ _ E2).
  destruct (read_stdout_ok s2 fx1 H2) as (s3 & E3 & H3).
  rewrite (ebind_inl _ _ _ _ _ E3).
  destruct (read_stderr_ok s3 fx1 H3) as (s4 & E4 & H4).
  rewrite (ebind_inl _ _ _ _ _ E4).
  destruct (wait_process_ok os s4 fx1 H4) as (s5 & fx5 & E5 & H5).
  rewrite (ebind_inl _ _ _ _ _ E5).
  destruct (finalize_stdout_ok s5 fx5 H5) as (s6 & fx6 & E6 & H6).
  rewrite (ebind_inl _ _ _ _ _ E6).
  destruct (finalize_stderr_ok s6 fx6 H6) as (s7 & fx7 & E7 & H7).
  rewrite (ebind_inl _ _ _ _ _ E7).
  destruct (classify_verdict (os_Wait os) s7 fx7) as (self' & E).
  exists self', fx7. exact E.
Qed.

Lemma Run_returns_wait_error :
  exists self' fx,
    @Run unix no_child (New "ls" [])
    = (self', Returned (Some (OtherError "wait: no child processes")), fx).
Proof.
  apply (Run_ends_by_Wait_result unix no_child (New "ls" [])).
  - unfold process_runs, no_child; cbn.
    repeat split; eexists; (split; [reflexivity|]); eexists; reflexivity.
  - unfold request_ok; cbn. repeat split.
Defined.

(** X16: when [Start] fails on a request without command whose pipes
    attach, [Run] returns the error of [Start]; the request keeps the
    command [Begin] built, not started, and its [Stdout], [Stderr] and
    [ExitCode] are as before. *)
Theorem Run_returns_Start_error :
  forall (P : Platform) os self r1 r2 e,
    WrappedCmd self = None ->
    os_StdoutPipe os = inl r1 -> os_StderrPipe os = inl r2 ->
    os_Start os = Some e ->
    exists self' cmd,
      Run os self = (self', Returned (Some e), begin_log self)
      /\ WrappedCmd self' = Some cmd
      /\ cmd_Process cmd = false
      /\ Stdout self' = Stdout self
      /\ Stderr self' = Stderr self
      /\ ExitCode self' = ExitCode self.
Proof.
  intros P os self r1 r2 e Hw Hp1 Hp2 Hs.
  rewrite (Run_unprepared os self Hw).
  rewrite (Begin_pipes_ok os self r1 r2 Hp1 Hp2).
  unfold after_preparation.
  erewrite ebind_inr by (eapply start_process_fail; [reflexivity | reflexivity | exact Hs]).
  cbn [conclude]. eexists. eexists. split; [reflexivity|].
  split; [reflexivity|]. split; [reflexivity|].
  unfold with_readers. destruct (AutoReadStdout self), (AutoReadStderr self); repeat split.
Qed.

Lemma Run_returns_Start_error_not_found :
  exists self' cmd,
    @Run unix (mkOS (inl (mkReader (inl []))) (inl (mkReader (inl []))) []
                    (Some (OtherError "executable file not found")) [] None)
         (New "nosuchprogram" [])
      = (self', Returned (Some (OtherError "executable file not found")),
         begin_log (New "nosuchprogram" []))
    /\ WrappedCmd self' = Some cmd
    /\ cmd_Process cmd = false
    /\ Stdout self' = Stdout (New "nosuchprogram" [])
    /\ Stderr self' = Stderr (New "nosuchprogram" [])
    /\ ExitCode self' = ExitCode (New "nosuchprogram" []).
Proof.
  apply (Run_returns_Start_error unix
           (mkOS (inl (mkReader (inl []))) (inl (mkReader (inl []))) []
                 (Some (OtherError "executable file not found")) [] None)
           (New "nosuchprogram" []) (mkReader (inl [])) (mkReader (inl []))
           (OtherError "executable file not found"));
    reflexivity.
Defined.



(** X18: [RunWithCallbacks] with a callback for each stream, on a request
    without readers and a process that starts and ends with wait status
    [w], whatever the pipes would answer: it returns nil with the exit
    status of [w]; the calls of each stream are, in order, the terminated
    lines of that stream's bytes and then its unterminated rest; [Stdout]
    (and likewise [Stderr]) is the whole text of the stream when its buffer
    is kept, and is left as it was otherwise. *)
Theorem RunWithCallbacks_streams_lines_and_keeps_text :
  forall (P : Platform) os self cb1 cb2 p1 p2 k1 k2 w,
    StdoutReader self = None -> StderrReader self = None ->
    os_Start os = None ->
    os_Wait os = wait_of_status w ->
    exists self' fx,
      RunWithCallbacks os (Some cb1) (Some cb2) p1 p2 k1 k2 self
        = (self', Returned None, fx)
      /\ ExitCode self' = ExitStatus w
      /\ Stdout self'
         = (if k1 then string_of_list_byte (stream_of STDOUT (os_output os))
            else Stdout self)
      /\ Stderr self'
         = (if k2 then string_of_list_byte (stream_of STDERR (os_output os))
            else Stderr self)
      /\ calls_of STDOUT fx = session_calls cb1 p1 (stream_of STDOUT (os_output os))
      /\ calls_of STDERR fx = session_calls cb2 p2 (stream_of STDERR (os_output os)).
Proof.
  intros P os self cb1 cb2 p1 p2 k1 k2 w Hr1 Hr2 Hs Hwait.
  unfold RunWithCallbacks, finish, RunWithCallbacks_body.
  rewrite !ebind_modify.
  set (self2 := set_AutoReadStderr false (set_AutoReadStdout false self)).
  erewrite ebind_inl
    by (apply call_Begin_eq; apply (Begin_no_pipes os self2); reflexivity).
  cbn beta iota. cbn [app]. rewrite ebind_ret.
  erewrite ebind_inl
    by (apply (update_cmd_eq
                 (set_cmd_Stdout (SinkWriter (NewCompositeWriter STDOUT (Some cb1) p1 k1))));
        reflexivity).
  erewrite ebind_inl
    by (apply (update_cmd_eq
                 (set_cmd_Stderr (SinkWriter (NewCompositeWriter STDERR (Some cb2) p2 k2))));
        reflexivity).
  unfold Run_body.
  erewrite ebind_inl by (eapply auto_initialize_skip; reflexivity).
  erewrite ebind_inl by (eapply start_process_eq; [reflexivity | reflexivity | exact Hs]).
  erewrite ebind_inl by (apply read_stdout_none; exact Hr1).
  erewrite ebind_inl by (apply read_stderr_none; exact Hr2).
  destruct (deliver_two_writers (os_output os) (Command self) (Command self :: Args self)
              (option_map (fun env => os_Environ os ++ map env_entry env) (Environment self))
              true
              (NewCompositeWriter STDOUT (Some cb1) p1 k1)
              (NewCompositeWriter STDERR (Some cb2) p2 k2)
              cb1 cb2 [] [] eq_refl eq_refl eq_refl eq_refl
              tracks_fresh (fun H => H) tracks_fresh (fun H => H))
    as (b1 & b2 & fxd & Hd & T1 & T2 & K1 & K2 & C1 & C2).
  cbn [app NewCompositeWriter keepBuffer buffer byteBuffer callbackPayload] in T1, T2, K1, K2, C1, C2.
  erewrite ebind_inl by (eapply wait_process_eq; [reflexivity | exact Hd]).
  destruct (finalize_sink_writer
              (with_buffer (NewCompositeWriter STDOUT (Some cb1) p1 k1) b1) cb1 _ eq_refl T1)
    as (cw1' & Hf1).
  erewrite ebind_inl by (eapply finalize_stdout_eq; [reflexivity | exact Hf1]).
  destruct (finalize_sink_writer
              (with_buffer (NewCompositeWriter STDERR (Some cb2) p2 k2) b2) cb2 _ eq_refl T2)
    as (cw2' & Hf2).
  erewrite ebind_inl by (eapply finalize_stderr_eq; [reflexivity | exact Hf2]).
  rewrite Hwait, classify_status. cbn [conclude].
  eexists. eexists. split; [reflexivity|].
  split; [reflexivity|]. split; [|split; [|split]].
  - cbn [keepBuffer with_buffer NewCompositeWriter buffer]. destruct k1, k2;
      cbn [set_text]; try reflexivity; cbn; now rewrite (K1 eq_refl).
  - cbn [keepBuffer with_buffer NewCompositeWriter buffer]. destruct k1, k2;
      cbn [set_text]; try reflexivity; cbn; now rewrite (K2 eq_refl).
  - rewrite !calls_of_app, calls_of_begin_log, C1. cbn [Type_ with_buffer NewCompositeWriter].
    rewrite calls_of_Called_same.
    rewrite (calls_of_Called_other STDOUT STDERR) by discriminate.
    rewrite app_nil_r. reflexivity.
  - rewrite !calls_of_app, calls_of_begin_log, C2. cbn [Type_ with_buffer NewCompositeWriter].
    rewrite calls_of_Called_same.
    rewrite (calls_of_Called_other STDERR STDOUT) by discriminate.
    cbn [app]. rewrite app_nil_r. reflexivity.
Qed.

Lemma RunWithCallbacks_streams_test_output :
  exists self' fx,
    @RunWithCallbacks unix test_output (Some (Callback 1)) (Some (Callback 2)) 10 20
                      true false (New "sh" ["-c"; "echo start; ..."]%string)
      = (self', Returned None, fx)
    /\ ExitCode self' = @ExitStatus unix 0
    /\ Stdout self'
       = (if true then string_of_list_byte (stream_of STDOUT (os_output test_output))
          else Stdout (New "sh" ["-c"; "echo start; ..."]%string))
    /\ Stderr self'
       = (if false then string_of_list_byte (stream_of STDERR (os_output test_output))
          else Stderr (New "sh" ["-c"; "echo start; ..."]%string))
    /\ calls_of STDOUT fx
       = session_calls (Callback 1) 10 (stream_of STDOUT (os_output test_output))
    /\ calls_of STDERR fx
       = session_calls (Callback 2) 20 (stream_of STDERR (os_output test_output)).
Proof.
  apply (RunWithCallbacks_streams_lines_and_keeps_text unix test_output
           (New "sh" ["-c"; "echo start; ..."]%string)
           (Callback 1) (Callback 2) 10 20 true false 0);
    reflexivity.
Defined.


